(** * Client-side streaming orchestration of the enrichment front end

    A shallow embedding of [frontend/src/lib/api.ts] ([analyzeUrlV2],
    [checkDuplicate]) and of the [useEnrichment] hook, with the properties
    of the step ledger, the frame decoder, the event parser, the duplicate
    gate and the orchestrator. *)

From Stdlib Require Import NArith ZArith Ascii String Strings.Byte DecimalString.
From Stdlib Require Import Floats.SpecFloat.
From stdpp Require Import base option list.

Set Warnings "-register-all,-clear-no-such-hyp".
Set Default Proof Using "Type".

Local Open Scope N_scope.

(** ** JavaScript strings and values *)

Module JS.

(** A JavaScript string is a sequence of UTF-16 code units. *)
Definition jsstring := list N.

(** An ASCII literal as a JavaScript string. *)
Definition js (s : string) : jsstring :=
  map N_of_ascii (list_ascii_of_string s).

(** The runtime values the program handles: what [JSON.parse] builds, and
    [undefined] for a property that is not there.  Numbers are IEEE-754
    doubles.  An object is the list of its own properties. *)
Inductive value : Type :=
  | VUndefined
  | VNull
  | VBool (b : bool)
  | VNumber (n : spec_float)
  | VString (s : jsstring)
  | VArray (items : list value)
  | VObject (props : list (jsstring * value)).

#[global] Instance jsstring_eq_dec : EqDecision jsstring := _.

Definition jsstring_eqb (a b : jsstring) : bool := bool_decide (a = b).

(** [ToBoolean]: the falsy values are [undefined], [null], [false], [+0],
    [-0], [NaN] and the empty string. *)
Definition truthy (v : value) : bool :=
  match v with
  | VUndefined | VNull => false
  | VBool b => b
  | VNumber n =>
      match n with
      | S754_zero _ | S754_nan => false
      | _ => true
      end
  | VString s => match s with [] => false | _ => true end
  | VArray _ | VObject _ => true
  end.

(** [a || b] *)
Definition or_else (a b : value) : value := if truthy a then a else b.

(** [a === b].  Objects and arrays compare by reference; the values of
    this model carry no reference, and every object the program compares
    comes out of its own [JSON.parse] call, so two of them are never the
    same object. *)
Definition strict_equal (a b : value) : bool :=
  match a, b with
  | VUndefined, VUndefined => true
  | VNull, VNull => true
  | VBool x, VBool y => Bool.eqb x y
  | VNumber x, VNumber y => SFeqb x y
  | VString x, VString y => jsstring_eqb x y
  | _, _ => false
  end.

(** Own property lookup of an object. *)
Fixpoint lookup_property (key : jsstring) (props : list (jsstring * value))
  : value :=
  match props with
  | [] => VUndefined
  | (k, v) :: rest =>
      if jsstring_eqb k key then v else lookup_property key rest
  end.

(** [v.key] for one of the keys the program reads ([type], [step],
    [status], [duration_ms], [detail], [data], [exists]): none of them is
    on a built-in prototype, so only an object can have it.  Reading a
    property of [null] or [undefined] throws a [TypeError]: [None]. *)
Definition get (v : value) (key : jsstring) : option value :=
  match v with
  | VUndefined | VNull => None
  | VObject props => Some (lookup_property key props)
  | _ => Some VUndefined
  end.

(** *** String methods *)

(** [s.startsWith(prefix)] *)
Fixpoint startsWith (prefix s : jsstring) : bool :=
  match prefix, s with
  | [], _ => true
  | p :: prefix', c :: s' => (p =? c) && startsWith prefix' s'
  | _ :: _, [] => false
  end.

(** [s.slice(n)] for [0 <= n]. *)
Definition slice (n : nat) (s : jsstring) : jsstring := drop n s.

(** The code units [trim] removes: ECMAScript's WhiteSpace and
    LineTerminator. *)
Definition is_whitespace (c : N) : bool :=
  (c =? 0x09) || (c =? 0x0A) || (c =? 0x0B) || (c =? 0x0C) || (c =? 0x0D)
  || (c =? 0x20) || (c =? 0xA0) || (c =? 0x1680)
  || ((0x2000 <=? c) && (c <=? 0x200A))
  || (c =? 0x2028) || (c =? 0x2029) || (c =? 0x202F) || (c =? 0x205F)
  || (c =? 0x3000) || (c =? 0xFEFF).

Fixpoint trimStart (s : jsstring) : jsstring :=
  match s with
  | c :: s' => if is_whitespace c then trimStart s' else s
  | [] => []
  end.

Definition trimEnd (s : jsstring) : jsstring := rev (trimStart (rev s)).

(** [s.trim()] *)
Definition trim (s : jsstring) : jsstring := trimEnd (trimStart s).

(** [s.split(sep)] for a separator of one code unit: never empty. *)
Fixpoint split (sep : N) (s : jsstring) : list jsstring :=
  match s with
  | [] => [[]]
  | c :: s' =>
      if c =? sep then [] :: split sep s'
      else match split sep s' with
           | piece :: pieces => (c :: piece) :: pieces
           | [] => [[c]]
           end
  end.

(** [lines.pop() || ''] together with what is left in [lines]. *)
Definition pop (lines : list jsstring) : list jsstring * jsstring :=
  (removelast lines, List.last lines []).

Definition is_ascii (c : N) : bool := c <? 0x80.

Definition lower_ascii (c : N) : N :=
  if (0x41 <=? c) && (c <=? 0x5A) then c + 0x20 else c.

(** A high surrogate not followed by a low one, or a low surrogate on its
    own: what makes [encodeURIComponent] throw a [URIError]. *)
Fixpoint has_lone_surrogate (s : jsstring) : bool :=
  match s with
  | [] => false
  | c :: s' =>
      if (0xD800 <=? c) && (c <=? 0xDBFF) then
        match s' with
        | d :: s'' =>
            if (0xDC00 <=? d) && (d <=? 0xDFFF) then has_lone_surrogate s''
            else true
        | [] => true
        end
      else if (0xDC00 <=? c) && (c <=? 0xDFFF) then true
      else has_lone_surrogate s'
  end.

(** A non-negative integer in a template literal. *)
Definition decimal (n : N) : jsstring :=
  js (NilEmpty.string_of_uint (N.to_uint n)).

(** *** Completions *)

(** What a [throw] carries, as far as [err instanceof Error] and
    [err.message] can tell. *)
Inductive thrown : Type :=
  | ErrorObject (message : jsstring)
  | NotAnError.

(** How a statement, a call or a promise ends: normally with a value, or
    abruptly with something thrown (a promise: resolved or rejected). *)
Inductive completion (A : Type) : Type :=
  | Normal (a : A)
  | Throw (e : thrown).
Arguments Normal {A} a.
Arguments Throw {A} e.

#[global] Instance completion_ret : MRet completion := λ A a, Normal a.

#[global] Instance completion_bind : MBind completion := λ A B k c,
  match c with
  | Normal a => k a
  | Throw e => Throw e
  end.

(** [try { body } catch { handler }] *)
Definition try_catch {A} (body : completion A) (handler : thrown → completion A)
  : completion A :=
  match body with
  | Normal a => Normal a
  | Throw e => handler e
  end.

(** What an [async] function's promise settles to when its body returns a
    promise: the outcome of that promise. *)
Definition resolve_with {A} (c : completion (completion A)) : completion A :=
  c ≫= id.

(** The parts of the platform the program calls and this development
    leaves open. *)
Record Platform := {
  (** [JSON.parse(text)]: the value, or the [SyntaxError] it throws. *)
  JSON_parse : jsstring → completion value;
  (** [s.toLowerCase()] on a string with a code unit outside ASCII. *)
  toLowerCase_unicode : jsstring → jsstring;
  (** [String(v)] on a value that is not a string. *)
  ToString : value → jsstring;
  (** The message of the [TypeError] for reading property [key] of [null]
      or [undefined]. *)
  TypeError_message : jsstring → jsstring
}.

(** [s.toLowerCase()] *)
Definition toLowerCase (P : Platform) (s : jsstring) : jsstring :=
  if forallb is_ascii s then map lower_ascii s else toLowerCase_unicode P s.

(** [v.key], throwing on [null] and [undefined]. *)
Definition get_or_throw (P : Platform) (v : value) (key : jsstring)
  : completion value :=
  match get v key with
  | Some x => Normal x
  | None => Throw (ErrorObject (TypeError_message P key))
  end.

(** The message of [new Error(v)] for a [v] that is not [undefined]. *)
Definition Error_message (P : Platform) (v : value) : jsstring :=
  match v with
  | VString s => s
  | _ => ToString P v
  end.

End JS.
Export JS.

(** ** [TextDecoder]

    [new TextDecoder()] decoding with [{ stream: true }]: the UTF-8
    decoder of the Encoding Standard in replacement mode, its state and
    the BOM flag carried from one call to the next. *)

Module Encoding.

Record utf8_decoder := {
  code_point : N;
  bytes_seen : N;
  bytes_needed : N;
  lower_boundary : N;
  upper_boundary : N
}.

Definition utf8_new : utf8_decoder :=
  {| code_point := 0; bytes_seen := 0; bytes_needed := 0;
     lower_boundary := 0x80; upper_boundary := 0xBF |}.

Inductive handler_result :=
  | Continue
  | CodePoint (cp : N)
  | DecodeError
  | DecodeErrorRestore.   (* error, and the byte goes back to the queue *)

Definition in_range (lo hi b : N) : bool := (lo <=? b) && (b <=? hi).

(** The UTF-8 decoder's handler on one byte. *)
Definition utf8_handler (d : utf8_decoder) (b : N)
  : utf8_decoder * handler_result :=
  if bytes_needed d =? 0 then
    if in_range 0x00 0x7F b then (d, CodePoint b)
    else if in_range 0xC2 0xDF b then
      ({| code_point := N.land b 0x1F; bytes_seen := bytes_seen d;
          bytes_needed := 1;
          lower_boundary := lower_boundary d;
          upper_boundary := upper_boundary d |}, Continue)
    else if in_range 0xE0 0xEF b then
      ({| code_point := N.land b 0xF; bytes_seen := bytes_seen d;
          bytes_needed := 2;
          lower_boundary := if b =? 0xE0 then 0xA0 else lower_boundary d;
          upper_boundary := if b =? 0xED then 0x9F else upper_boundary d |},
       Continue)
    else if in_range 0xF0 0xF4 b then
      ({| code_point := N.land b 0x7; bytes_seen := bytes_seen d;
          bytes_needed := 3;
          lower_boundary := if b =? 0xF0 then 0x90 else lower_boundary d;
          upper_boundary := if b =? 0xF4 then 0x8F else upper_boundary d |},
       Continue)
    else (d, DecodeError)
  else if negb (in_range (lower_boundary d) (upper_boundary d) b) then
    (utf8_new, DecodeErrorRestore)
  else
    let cp := N.lor (N.shiftl (code_point d) 6) (N.land b 0x3F) in
    let seen := bytes_seen d + 1 in
    if negb (seen =? bytes_needed d) then
      ({| code_point := cp; bytes_seen := seen;
          bytes_needed := bytes_needed d;
          lower_boundary := 0x80; upper_boundary := 0xBF |}, Continue)
    else (utf8_new, CodePoint cp).

(** What one result adds to the output in replacement mode. *)
Definition emitted (r : handler_result) : list N :=
  match r with
  | Continue => []
  | CodePoint cp => [cp]
  | DecodeError | DecodeErrorRestore => [0xFFFD]
  end.

(** One byte of the queue: a restored byte is read again at once. *)
Definition process_byte (d : utf8_decoder) (b : N) : utf8_decoder * list N :=
  match utf8_handler d b with
  | (d', DecodeErrorRestore) =>
      let '(d'', r) := utf8_handler d' b in
      (d'', 0xFFFD :: emitted r)
  | (d', r) => (d', emitted r)
  end.

(** The bytes of a chunk, in order; at the end of the chunk the decoder
    is not flushed. *)
Fixpoint process_queue (d : utf8_decoder) (bytes : list byte)
  : utf8_decoder * list N :=
  match bytes with
  | [] => (d, [])
  | b :: rest =>
      let '(d', out) := process_byte d (Byte.to_N b) in
      let '(d'', out') := process_queue d' rest in
      (d'', out ++ out')
  end.

(** Serializing the scalar values: the first one ever is dropped when it
    is the byte order mark. *)
Definition serialize (BOM_seen : bool) (scalars : list N) : bool * list N :=
  match scalars with
  | [] => (BOM_seen, [])
  | cp :: rest =>
      if BOM_seen then (true, scalars)
      else (true, if cp =? 0xFEFF then rest else scalars)
  end.

(** A scalar value as UTF-16 code units. *)
Definition utf16 (cp : N) : list N :=
  if cp <? 0x10000 then [cp]
  else
    let c := cp - 0x10000 in
    [0xD800 + N.shiftr c 10; 0xDC00 + N.land c 0x3FF].

Record TextDecoder := {
  decoder : utf8_decoder;
  BOM_seen : bool
}.

Definition TextDecoder_new : TextDecoder :=
  {| decoder := utf8_new; BOM_seen := false |}.

(** [decoder.decode(value, { stream: true })] *)
Definition decode (td : TextDecoder) (chunk : list byte)
  : TextDecoder * jsstring :=
  let '(d, scalars) := process_queue (decoder td) chunk in
  let '(seen, out) := serialize (BOM_seen td) scalars in
  ({| decoder := d; BOM_seen := seen |}, flat_map utf16 out).

End Encoding.

(** ** [lib/types.ts] *)

(** [PipelineStep] of [lib/types.ts], with the fields as they are at run
    time: [analyzeUrlV2] copies them from the parsed message unchecked. *)
Record PipelineStep := mkStep {
  step : value;
  status : value;
  duration_ms : value;
  detail : value
}.

(** ** [lib/api.ts] *)

Module Api.
Import Encoding.

(** A [fetch] response, as far as the program looks at it. *)
Record Response := {
  ok : bool;
  status : N;
  (** how the promise of [response.json()] settles *)
  json : completion value;
  (** [response.body]: [None] for [null]; else the chunks [reader.read()]
      delivers, then [None] for [done], or what the failing read rejects
      with *)
  body : option (list (list byte) * option thrown)
}.

(** A call of one of the three callbacks of [analyzeUrlV2]. *)
Inductive callback : Type :=
  | onStep (s : PipelineStep)
  | onResult (result : value)
  | onError (err : value).

Section WithPlatform.
Variable P : Platform.

(** The [try] block of the read loop, on the trimmed payload. *)
Definition dispatch (jsonStr : jsstring) : completion (list callback) :=
  msg ← JSON_parse P jsonStr;
  type ← get_or_throw P msg (js "type");
  if strict_equal type (VString (js "step")) then
    s ← get_or_throw P msg (js "step");
    st ← get_or_throw P msg (js "status");
    ms ← get_or_throw P msg (js "duration_ms");
    d ← get_or_throw P msg (js "detail");
    mret [onStep (mkStep s st ms d)]
  else if strict_equal type (VString (js "result")) then
    data ← get_or_throw P msg (js "data");
    mret [onResult data]
  else if strict_equal type (VString (js "error")) then
    d ← get_or_throw P msg (js "detail");
    mret [onError (or_else d (VString (js "Unknown pipeline error")))]
  else mret [].

(** The body of [for (const line of lines)]: the callbacks it calls, or
    what it throws. *)
Definition process_line (line : jsstring) : completion (list callback) :=
  if negb (startsWith (js "data: ") line) then mret []
  else
    let jsonStr := trim (slice 6 line) in
    if negb (truthy (VString jsonStr)) then mret []
    else try_catch (dispatch jsonStr) (λ _, mret []).

(** The callbacks a line makes the loop body call. *)
Definition calls_of (line : jsstring) : list callback :=
  match process_line line with
  | Normal calls => calls
  | Throw _ => []
  end.

(** [for (const line of lines)]: the callbacks called, in order, and how
    the loop ends; a line that throws ends it. *)
Fixpoint process_lines (lines : list jsstring)
  : list callback * completion () :=
  match lines with
  | [] => ([], Normal ())
  | line :: rest =>
      match process_line line with
      | Normal calls =>
          let '(calls', ending) := process_lines rest in
          (calls ++ calls', ending)
      | Throw e => ([], Throw e)
      end
  end.

(** One round of [while (true)] after a successful read of [value]:
    the new decoder state and buffer, the callbacks called and how the
    round ends. *)
Definition read_chunk (td : TextDecoder) (buffer : jsstring)
    (value : list byte)
  : TextDecoder * jsstring * (list callback * completion ()) :=
  let '(td', text) := decode td value in
  let buffer := buffer ++ text in
  let '(lines, buffer) := pop (split 0x0A buffer) in
  (td', buffer, process_lines lines).

(** How the reads end: with [done], or with a rejection. *)
Definition ending_of (ending : option thrown) : completion () :=
  match ending with
  | None => Normal ()
  | Some e => Throw e
  end.

(** The read loop over the chunks the reader delivers; [ending] is
    [None] when the reader then reports [done], and what [reader.read()]
    rejects with otherwise. *)
Fixpoint read_loop (td : TextDecoder) (buffer : jsstring)
    (chunks : list (list byte)) (ending : option thrown)
  : list callback * completion () :=
  match chunks with
  | [] => ([], ending_of ending)
  | value :: rest =>
      match read_chunk td buffer value with
      | (td', buffer', (calls, Normal _)) =>
          let '(calls', ending') := read_loop td' buffer' rest ending in
          (calls ++ calls', ending')
      | (_, _, (calls, Throw e)) => (calls, Throw e)
      end
  end.

(** [analyzeUrlV2] once [fetch] has settled: the callbacks called, in
    order, and how the returned promise settles. *)
Definition analyzeUrlV2 (fetched : completion Response)
  : list callback * completion () :=
  match fetched with
  | Throw e => ([], Throw e)
  | Normal response =>
      if negb (ok response) then
        let error :=
          match json response with
          | Normal v => v
          | Throw _ => VObject [(js "detail", VString (js "Analysis failed"))]
          end in
        ([], d ← get_or_throw P error (js "detail");
             Throw (ErrorObject (Error_message P
               (or_else d (VString (js "HTTP " ++ decimal (status response)
                                    ++ js ": Analysis failed"))))))
      else
        match body response with
        | None => ([], Throw (ErrorObject (js "No response body")))
        | Some (chunks, ending) =>
            read_loop TextDecoder_new [] chunks ending
        end
  end.

Definition exists_false : value := VObject [(js "exists", VBool false)].

(** [checkDuplicate], given how the [fetch] settles if it is called: the
    domain of the request made, if any, and how the returned promise
    settles.  The [try] block returns the promise of [response.json()]
    itself, so that promise settles after the block is left. *)
Definition checkDuplicate (fetched : completion Response) (domain : jsstring)
  : option jsstring * completion value :=
  let uri : completion jsstring :=
    if has_lone_surrogate domain then Throw (ErrorObject (js "URI malformed"))
    else Normal domain in
  let try_block : completion (completion value) :=
    _ ← uri;
    response ← fetched;
    if negb (ok response) then mret (Normal exists_false)
    else mret (json response) in
  (match uri with Normal d => Some d | Throw _ => None end,
   resolve_with
     (try_catch try_block (λ _, Normal (Normal exists_false)))).

End WithPlatform.

End Api.

(** ** The [useEnrichment] hook *)

(** [prev.findIndex((s) => s.step === step.step)] *)
Definition findIndex (incoming : PipelineStep) (prev : list PipelineStep)
  : option nat :=
  fst <$> list_find (λ s, strict_equal (step s) (step incoming) = true) prev.

(** The updater passed to [setSteps] in [runPipeline]. *)
Definition onStep_update (incoming : PipelineStep) (prev : list PipelineStep)
  : list PipelineStep :=
  match findIndex incoming prev with
  | Some idx => <[idx := incoming]> prev
  | None => prev ++ [incoming]
  end.

Module UseEnrichment.

(** The six [useState] cells.  The store holds the value each cell has
    once the updates queued so far are applied; [null] is [VNull], and
    [None] for [pendingUrl]. *)
Record State := {
  results : value;
  steps : list PipelineStep;
  isLoading : bool;
  error : value;
  duplicate : value;
  pendingUrl : option jsstring
}.

Definition initial : State :=
  {| results := VNull; steps := []; isLoading := false; error := VNull;
     duplicate := VNull; pendingUrl := None |}.

Definition setResults (v : value) (st : State) : State :=
  {| results := v; steps := steps st; isLoading := isLoading st;
     error := error st; duplicate := duplicate st;
     pendingUrl := pendingUrl st |}.
Definition setSteps (f : list PipelineStep → list PipelineStep) (st : State)
  : State :=
  {| results := results st; steps := f (steps st); isLoading := isLoading st;
     error := error st; duplicate := duplicate st;
     pendingUrl := pendingUrl st |}.
Definition setIsLoading (b : bool) (st : State) : State :=
  {| results := results st; steps := steps st; isLoading := b;
     error := error st; duplicate := duplicate st;
     pendingUrl := pendingUrl st |}.
Definition setError (v : value) (st : State) : State :=
  {| results := results st; steps := steps st; isLoading := isLoading st;
     error := v; duplicate := duplicate st; pendingUrl := pendingUrl st |}.
Definition setDuplicate (v : value) (st : State) : State :=
  {| results := results st; steps := steps st; isLoading := isLoading st;
     error := error st; duplicate := v; pendingUrl := pendingUrl st |}.
Definition setPendingUrl (u : option jsstring) (st : State) : State :=
  {| results := results st; steps := steps st; isLoading := isLoading st;
     error := error st; duplicate := duplicate st; pendingUrl := u |}.

(** The remote service: how each [fetch] settles, by the domain looked up
    and by the URL submitted. *)
Record Network := {
  check_duplicate : jsstring → completion Api.Response;
  analyze_stream : jsstring → completion Api.Response
}.

(** The requests an operation makes; a pipeline request with the store
    as it stands when [analyzeUrlV2] is called. *)
Inductive request : Type :=
  | CheckDuplicateRequest (domain : jsstring)
  | AnalyzeStreamRequest (url : jsstring) (store : State).

(** The URLs of the pipeline requests among [reqs], in order. *)
Definition pipeline_urls (reqs : list request) : list jsstring :=
  omap (λ r, match r with
             | AnalyzeStreamRequest url _ => Some url
             | CheckDuplicateRequest _ => None
             end) reqs.

(** What [runPipeline] has set by the time it calls [analyzeUrlV2]. *)
Definition loading_and_cleared (st : State) : Prop :=
  isLoading st = true ∧ error st = VNull ∧ results st = VNull
  ∧ steps st = [] ∧ duplicate st = VNull.

(** What holds of a pipeline request made by an operation that leaves
    the store [final]. *)
Definition sent_loading (final : State) (r : request) : Prop :=
  match r with
  | AnalyzeStreamRequest _ at_request =>
      loading_and_cleared at_request ∧ isLoading final = false
  | CheckDuplicateRequest _ => True
  end.

(** What a call of one of the hook's operations leaves behind. *)
Record Run := {
  store : State;
  requests : list request;
  settled : completion ()
}.

(** The three callbacks [runPipeline] hands to [analyzeUrlV2]. *)
Definition call (c : Api.callback) (st : State) : State :=
  match c with
  | Api.onStep s => setSteps (onStep_update s) st
  | Api.onResult result => setResults result st
  | Api.onError err => setError err st
  end.

(** [err instanceof Error ? err.message : 'An unknown error occurred'] *)
Definition caught_message (err : thrown) : jsstring :=
  match err with
  | ErrorObject message => message
  | NotAnError => js "An unknown error occurred"
  end.

(** The five setters [runPipeline] calls before [analyzeUrlV2]. *)
Definition runPipeline_begin (st : State) : State :=
  setDuplicate VNull
    (setSteps (λ _, []) (setResults VNull (setError VNull
      (setIsLoading true st)))).

(** [url.replace(/^https?:\/\//, '')]: the match at the start of the
    string, [s?] greedy, is removed. *)
Definition replace_scheme (s : jsstring) : jsstring :=
  if startsWith (js "http") s then
    let after_http := drop 4 s in
    if startsWith (js "s") after_http
       && startsWith (js "://") (drop 1 after_http)
    then drop 8 s
    else if startsWith (js "://") after_http then drop 7 s
    else s
  else s.

Section WithPlatform.
Variables (P : Platform) (net : Network).

Definition runPipeline (url : jsstring) (st : State) : State * list request :=
  let st := runPipeline_begin st in
  let sent := AnalyzeStreamRequest url st in
  let '(calls, outcome) := Api.analyzeUrlV2 P (analyze_stream net url) in
  let st := fold_left (λ st c, call c st) calls st in
  let st :=
    match outcome with
    | Normal _ => st
    | Throw err => setError (VString (caught_message err)) st
    end in
  (setIsLoading false st, [sent]).

(** The lookup key [analyze] computes. *)
Definition domain_of (url : jsstring) : jsstring :=
  let domain := trim url in
  toLowerCase P (hd [] (split 0x2F (replace_scheme domain))).

(** How the promise of [checkDuplicate] settles in [analyze(url)]. *)
Definition lookup (url : jsstring) : completion value :=
  (Api.checkDuplicate (check_duplicate net (domain_of url))
     (domain_of url)).2.

Definition analyze (url : jsstring) (st : State) : Run :=
  let domain := domain_of url in
  let '(asked, dup) :=
    Api.checkDuplicate (check_duplicate net domain) domain in
  let lookups :=
    match asked with
    | Some d => [CheckDuplicateRequest d]
    | None => []
    end in
  match dupResult ← dup;
        found ← get_or_throw P dupResult (js "exists");
        mret (dupResult, found) with
  | Throw e => {| store := st; requests := lookups; settled := Throw e |}
  | Normal (dupResult, found) =>
      if truthy found then
        {| store := setPendingUrl (Some url) (setDuplicate dupResult st);
           requests := lookups; settled := Normal () |}
      else
        let '(st', sent) := runPipeline url st in
        {| store := st'; requests := lookups ++ sent;
           settled := Normal () |}
  end.

(** [runPipeline(url)] fails with message [m]: [analyzeUrlV2] calls no
    callback and throws an [Error] of that message, which ends up in
    [error], with [results] null and [isLoading] false. *)
Definition fails_with (url : jsstring) (st : State) (m : jsstring) : Prop :=
  Api.analyzeUrlV2 P (analyze_stream net url) = ([], Throw (ErrorObject m))
  ∧ error (runPipeline url st).1 = VString m
  ∧ results (runPipeline url st).1 = VNull
  ∧ isLoading (runPipeline url st).1 = false.

Definition confirmAnalyze (st : State) : Run :=
  match pendingUrl st with
  | Some url =>
      if truthy (VString url) then
        let st := setDuplicate VNull st in
        let '(st, sent) := runPipeline url st in
        {| store := setPendingUrl None st; requests := sent;
           settled := Normal () |}
      else {| store := st; requests := []; settled := Normal () |}
  | None => {| store := st; requests := []; settled := Normal () |}
  end.

End WithPlatform.

Definition dismissDuplicate (st : State) : State :=
  setPendingUrl None (setDuplicate VNull st).

Definition reset (st : State) : State :=
  setPendingUrl None
    (setDuplicate VNull (setError VNull
      (setSteps (λ _, []) (setResults VNull st)))).

End UseEnrichment.

(** Folding the updater over the [step] events of a run, from the empty
    ledger [runPipeline] starts with. *)
Definition ledger_of (events : list PipelineStep) : list PipelineStep :=
  fold_left (λ acc e, onStep_update e acc) events [].

(** The step name of a record whose [step] is a string, as the interface
    declares it. *)
Definition step_name (s : PipelineStep) : option jsstring :=
  match step s with VString n => Some n | _ => None end.

Definition step_names (l : list PipelineStep) : list jsstring :=
  omap step_name l.

Definition string_named (s : PipelineStep) : Prop := is_Some (step_name s).

(** The distinct elements of a list in the order of their first
    appearance. *)
Fixpoint first_seen (keys : list jsstring) : list jsstring :=
  match keys with
  | [] => []
  | k :: rest => k :: filter (λ x, x ≠ k) (first_seen rest)
  end.

(** ** The lines the parser has no event for *)

(** The payload of a line that starts with [data: ]. *)
Definition payload (line : jsstring) : jsstring := trim (slice 6 line).

(** The discriminator of a parsed message is missing, or is none of
    [step], [result], [error]. *)
Definition unknown_type (msg : value) : Prop :=
  ∀ type, get msg (js "type") = Some type →
    type ≠ VString (js "step") ∧ type ≠ VString (js "result")
    ∧ type ≠ VString (js "error").

(** The lines the parser has no event for. *)
Definition dropped (P : Platform) (line : jsstring) : Prop :=
  startsWith (js "data: ") line = false
  ∨ payload line = []
  ∨ (∃ e, JSON_parse P (payload line) = Throw e)
  ∨ (∃ msg, JSON_parse P (payload line) = Normal msg ∧ unknown_type msg).

(** ** The derivations as the specification words them *)

Module Spec.

(** Stripping a leading [http://] or [https://]. *)
Definition strip_scheme (s : jsstring) : jsstring :=
  if startsWith (js "https://") s then drop 8 s
  else if startsWith (js "http://") s then drop 7 s
  else s.

(** The substring before the first [/]. *)
Fixpoint before_first_slash (s : jsstring) : jsstring :=
  match s with
  | [] => []
  | c :: s' => if c =? 0x2F then [] else c :: before_first_slash s'
  end.

(** The domain: scheme stripped, cut at the first [/], lowercased. *)
Definition domain (P : Platform) (url : jsstring) : jsstring :=
  toLowerCase P (before_first_slash (strip_scheme url)).

(** The message of a failed pipeline request: the [detail] of the error
    body when it has one, a generic message otherwise. *)
Definition failure_message (detail : option jsstring) : jsstring :=
  match detail with
  | Some d => d
  | None => js "Analysis failed"
  end.

End Spec.

(** ** Scenarios *)

Module Scenario.
Import UseEnrichment.

Definition quoted (s : string) : jsstring := [0x22] ++ js s ++ [0x22].

(** The double [n] for a small natural number [n]. *)
Definition number (n : Z) : value :=
  VNumber (binary_normalize 53 1024 n 0 false).

Definition step_running_text : jsstring :=
  js "{" ++ quoted "type" ++ js ":" ++ quoted "step" ++ js ","
  ++ quoted "step" ++ js ":" ++ quoted "scrape" ++ js ","
  ++ quoted "status" ++ js ":" ++ quoted "running" ++ js "}".

Definition step_ok_text : jsstring :=
  js "{" ++ quoted "type" ++ js ":" ++ quoted "step" ++ js ","
  ++ quoted "step" ++ js ":" ++ quoted "scrape" ++ js ","
  ++ quoted "status" ++ js ":" ++ quoted "ok" ++ js ","
  ++ quoted "duration_ms" ++ js ":120}".

Definition result_text : jsstring :=
  js "{" ++ quoted "type" ++ js ":" ++ quoted "result" ++ js ","
  ++ quoted "data" ++ js ":{" ++ quoted "domain" ++ js ":"
  ++ quoted "x.com" ++ js "}}".

Definition unknown_text : jsstring :=
  js "{" ++ quoted "type" ++ js ":" ++ quoted "unknown" ++ js "}".

Definition step_running : value :=
  VObject [(js "type", VString (js "step"));
           (js "step", VString (js "scrape"));
           (js "status", VString (js "running"))].

Definition step_ok : value :=
  VObject [(js "type", VString (js "step"));
           (js "step", VString (js "scrape"));
           (js "status", VString (js "ok"));
           (js "duration_ms", number 120)].

Definition result_data : value :=
  VObject [(js "domain", VString (js "x.com"))].

Definition result_message : value :=
  VObject [(js "type", VString (js "result")); (js "data", result_data)].

Definition syntax_error : thrown := ErrorObject (js "Unexpected token").

(** A platform for the scenarios: [JSON.parse] tabulated on the four
    payloads above, a [SyntaxError] elsewhere; the other operations are
    not reached. *)
Definition platform : Platform :=
  {| JSON_parse := λ text,
       if jsstring_eqb text step_running_text then Normal step_running
       else if jsstring_eqb text step_ok_text then Normal step_ok
       else if jsstring_eqb text result_text then Normal result_message
       else if jsstring_eqb text unknown_text then
         Normal (VObject [(js "type", VString (js "unknown"))])
       else Throw syntax_error;
     toLowerCase_unicode := id;
     ToString := λ _, js "[object Object]";
     TypeError_message := λ key,
       js "Cannot read properties of null (reading '" ++ key ++ js "')" |}.

Definition utf8 (s : jsstring) : list byte :=
  omap Byte.of_N s.

Definition respond (ok : bool) (status : N) (json : completion value)
    (body : option (list (list byte) * option thrown))
  : completion Api.Response :=
  Normal {| Api.ok := ok; Api.status := status; Api.json := json;
            Api.body := body |}.

(** The lookup answers that shop.com exists, last analyzed on
    2025-01-01. *)
Definition known_shop : value :=
  VObject [(js "exists", VBool true);
           (js "domain", VString (js "shop.com"));
           (js "last_analyzed", VString (js "2025-01-01"))].

(** The stream of the three events of the scenario, cut in the middle of
    the second frame. *)
Definition three_events : list (list byte) :=
  [utf8 (js "data: " ++ step_running_text ++ [0x0A; 0x0A]
         ++ js "data: " ++ take 20 step_ok_text);
   utf8 (drop 20 step_ok_text ++ [0x0A; 0x0A]
         ++ js "data: " ++ result_text ++ [0x0A; 0x0A])].

(** Networks: the lookup finds the shop; the lookup finds nothing and the
    pipeline streams the three events; the lookup answers something that
    is not JSON; the pipeline answers 500 with the given error body. *)
Definition net_duplicate : Network :=
  {| check_duplicate := λ _, respond true 200 (Normal known_shop) None;
     analyze_stream := λ _,
       respond true 200 (Throw syntax_error) (Some (three_events, None)) |}.

Definition net_clear : Network :=
  {| check_duplicate := λ _, respond true 200 (Normal Api.exists_false) None;
     analyze_stream := λ _,
       respond true 200 (Throw syntax_error) (Some (three_events, None)) |}.

Definition net_lookup_not_json : Network :=
  {| check_duplicate := λ _, respond true 200 (Throw syntax_error) None;
     analyze_stream := λ _,
       respond true 200 (Throw syntax_error) (Some (three_events, None)) |}.

Definition boom : value := VObject [(js "detail", VString (js "boom"))].

(** A run in flight on which the pipeline has reported an error. *)
Definition in_flight_with_error : State :=
  call (Api.onError (VString (js "boom"))) (runPipeline_begin initial).

Definition net_failing (error_body : completion value) : Network :=
  {| check_duplicate := λ _, respond true 200 (Normal Api.exists_false) None;
     analyze_stream := λ _, respond false 500 error_body None |}.

End Scenario.

(** ** The rest of [lib/api.ts] *)

Module ApiV1.

Section WithPlatform.
Variable P : Platform.

(** [analyzeUrl] once [fetch] has settled: how the returned promise
    settles.  On success the promise of [response.json()] is returned. *)
Definition analyzeUrl (fetched : completion Api.Response) : completion value :=
  response ← fetched;
  if negb (Api.ok response) then
    let error :=
      match Api.json response with
      | Normal v => v
      | Throw _ => VObject [(js "detail", VString (js "Analysis failed"))]
      end in
    d ← get_or_throw P error (js "detail");
    Throw (ErrorObject (Error_message P
      (or_else d (VString (js "HTTP " ++ decimal (Api.status response)
                           ++ js ": Analysis failed")))))
  else Api.json response.

End WithPlatform.

(** [checkHealth] once [fetch] has settled. *)
Definition checkHealth (fetched : completion Api.Response) : completion bool :=
  try_catch (response ← fetched; mret (Api.ok response)) (λ _, mret false).

End ApiV1.

(** ** The components around the hook *)

Module Components.
Import UseEnrichment.

(** [handleSubmit] of [EnrichmentForm]: the argument [onSubmit] is called
    with, if it is called. *)
Definition handleSubmit (url : jsstring) : option jsstring :=
  if truthy (VString (trim url)) then Some (trim url) else None.

(** The [disabled] attribute of the submit button. *)
Definition submit_disabled (isLoading : bool) (url : jsstring) : bool :=
  isLoading || negb (truthy (VString (trim url))).

(** [steps.some((s) => s.status === 'running')] of [PipelineProgress]. *)
Definition hasRunning (steps : list PipelineStep) : bool :=
  existsb (λ s, strict_equal (status s) (VString (js "running"))) steps.

(** [PipelineProgress] gets past its first line,
    [if (steps.length === 0) return null].  The rows are then built from
    the records, which throws when the [step] of one is not a string: so
    [true] does not say that the list is on the page, [false] says that it
    is not. *)
Definition PipelineProgress_has_rows (steps : list PipelineStep) : bool :=
  negb (length steps =? 0)%nat.

(** The five conditions of [Home]: for each of the two places of
    [PipelineProgress], for [ErrorDisplay], [ResultsDisplay] and the
    [DuplicateWarning] modal, whether [Home] mounts it for a store.  A
    component that is mounted can still throw while it renders a value of
    another type than its props declare, and then nothing is shown: a
    [false] here says that the component is not on the page, a [true]
    only that [Home] mounts it. *)
Record Page := {
  progress_while_loading : bool;
  progress_after : bool;
  error_display : bool;
  results_display : bool;
  duplicate_warning : bool
}.

Definition Home (st : State) : Page :=
  {| progress_while_loading :=
       isLoading st && PipelineProgress_has_rows (steps st);
     progress_after :=
       negb (isLoading st) && (0 <? length (steps st))%nat
       && negb (truthy (results st))
       && PipelineProgress_has_rows (steps st);
     error_display := truthy (error st);
     results_display := truthy (results st) && negb (isLoading st);
     duplicate_warning :=
       truthy (duplicate st)
       && match get (duplicate st) (js "exists") with
          | Some found => truthy found
          | None => false
          end |}.

(** The stores the hook is in between calls, when every call of
    [analyze] and [confirmAnalyze] is left to settle before the next
    operation, whatever the remote service answers each time. *)
Inductive settled_store (P : Platform) : State → Prop :=
  | settled_initial : settled_store P initial
  | settled_analyze net url st :
      settled_store P st → settled_store P (store (analyze P net url st))
  | settled_confirmAnalyze net st :
      settled_store P st → settled_store P (store (confirmAnalyze P net st))
  | settled_dismissDuplicate st :
      settled_store P st → settled_store P (dismissDuplicate st)
  | settled_reset st :
      settled_store P st → settled_store P (reset st).

End Components.

(** The first code unit, if any, is no white space. *)
Definition starts_clean (s : jsstring) : Prop :=
  match s with
  | [] => True
  | c :: _ => is_whitespace c = false
  end.

(** A code unit a lookup key of an ASCII URL can hold: no slash and no
    upper case letter. *)
Definition key_unit (c : N) : Prop :=
  c ≠ 0x2F ∧ ¬ (0x41 ≤ c ∧ c ≤ 0x5A).

(** Every code unit is ASCII. *)
Definition ascii_only (s : jsstring) : Prop :=
  Forall (λ c, is_ascii c = true) s.

(** [r] is the last of the events of its step name. *)
Definition latest (events : list PipelineStep) (r : PipelineStep) : Prop :=
  ∃ before after,
    events = before ++ r :: after
    ∧ Forall (λ e, step e ≠ step r) after.

(** ** Sample data for the further properties *)

Module Sample.
Import UseEnrichment.

Definition scrape_running : PipelineStep :=
  mkStep (VString (js "scrape")) (VString (js "running")) VUndefined VUndefined.

Definition scrape_ok : PipelineStep :=
  mkStep (VString (js "scrape")) (VString (js "ok")) (Scenario.number 120)
    VUndefined.

(** An [error] event without [detail]. *)
Definition error_message : value :=
  VObject [(js "type", VString (js "error"))].

(** A platform whose [JSON.parse] answers [error_message] to every text. *)
Definition platform_error : Platform :=
  {| JSON_parse := λ _, Normal error_message;
     toLowerCase_unicode := id;
     ToString := λ _, js "[object Object]";
     TypeError_message := λ key,
       js "Cannot read properties of null (reading '" ++ key ++ js "')" |}.

(** The lookup answers the JSON value [null]. *)
Definition net_lookup_null : Network :=
  {| check_duplicate := λ _, Scenario.respond true 200 (Normal VNull) None;
     analyze_stream := λ _,
       Scenario.respond true 200 (Throw Scenario.syntax_error)
         (Some (Scenario.three_events, None)) |}.

(** The lookup answers an object without [exists]. *)
Definition net_lookup_empty : Network :=
  {| check_duplicate := λ _,
       Scenario.respond true 200 (Normal (VObject [])) None;
     analyze_stream := λ _,
       Scenario.respond true 200 (Throw Scenario.syntax_error)
         (Some (Scenario.three_events, None)) |}.

(** The pipeline streams the three events and the next read fails. *)
Definition net_broken_stream : Network :=
  {| check_duplicate := λ _,
       Scenario.respond true 200 (Normal Api.exists_false) None;
     analyze_stream := λ _,
       Scenario.respond true 200 (Throw Scenario.syntax_error)
         (Some (Scenario.three_events,
                Some (ErrorObject (js "network error")))) |}.

End Sample.

(** * Properties *)

(** ** The step ledger *)

Section StepLedger.
Implicit Types (e r : PipelineStep) (prev acc : list PipelineStep).

Lemma strict_equal_string (v : value) (n : jsstring) :
  strict_equal v (VString n) = true ↔ v = VString n.
Proof.
  destruct v; simpl; try (split; [discriminate | congruence]).
  unfold jsstring_eqb. rewrite bool_decide_eq_true.
  split; congruence.
Qed.

Lemma findIndex_Some e prev n i :
  step e = VString n →
  findIndex e prev = Some i ↔
  (∃ r, prev !! i = Some r ∧ step r = VString n) ∧
  (∀ j r, prev !! j = Some r → j < i → step r ≠ VString n)%nat.
Proof.
  intros Hn. unfold findIndex. rewrite Hn. split.
  - intros Hf. destruct (list_find _ prev) as [[i' r]|] eqn:E; [|done].
    simpl in Hf. injection Hf as ->.
    apply list_find_Some in E as (Hr & Hm & Hleast).
    split; [exists r; by rewrite <- strict_equal_string|].
    intros j r' Hj Hlt. rewrite <- strict_equal_string. eauto.
  - intros [(r & Hr & Hm) Hleast].
    assert (list_find (λ s, strict_equal (step s) (VString n) = true) prev
            = Some (i, r)) as ->; [|done].
    apply list_find_Some. split_and!; [done|by apply strict_equal_string|].
    intros j r' Hj Hlt. rewrite strict_equal_string. eauto.
Qed.

Lemma findIndex_None e prev n :
  step e = VString n →
  findIndex e prev = None ↔ ∀ r, r ∈ prev → step r ≠ VString n.
Proof.
  intros Hn. unfold findIndex. rewrite Hn, fmap_None, list_find_None.
  rewrite Forall_forall. by setoid_rewrite strict_equal_string.
Qed.

Lemma step_name_Some r n : step_name r = Some n ↔ step r = VString n.
Proof. unfold step_name. destruct (step r); naive_solver. Qed.

Lemma elem_of_step_names n prev :
  n ∈ step_names prev ↔ ∃ r, r ∈ prev ∧ step r = VString n.
Proof.
  unfold step_names. rewrite list_elem_of_omap.
  by setoid_rewrite step_name_Some.
Qed.

(** Replacing a record by one of the same name keeps the names. *)
Lemma step_names_insert e prev i r n :
  prev !! i = Some r → step r = VString n → step e = VString n →
  step_names (<[i := e]> prev) = step_names prev.
Proof.
  intros Hi Hr He.
  rewrite <- (take_drop_middle prev i r Hi) at 2.
  rewrite insert_take_drop by eauto using lookup_lt_Some.
  unfold step_names. rewrite !omap_app. simpl.
  apply step_name_Some in Hr, He. by rewrite Hr, He.
Qed.

Lemma step_names_update e prev n :
  step e = VString n →
  step_names (onStep_update e prev) =
    if decide (n ∈ step_names prev) then step_names prev
    else step_names prev ++ [n].
Proof.
  intros He. unfold onStep_update.
  destruct (findIndex e prev) as [i|] eqn:E.
  - apply (findIndex_Some _ _ n) in E as [(r & Hi & Hr) _]; [|done].
    rewrite decide_True
      by (apply elem_of_step_names; eauto using list_elem_of_lookup_2).
    by eapply step_names_insert.
  - rewrite (findIndex_None _ _ n) in E by done.
    rewrite decide_False by (rewrite elem_of_step_names; naive_solver).
    unfold step_names. rewrite omap_app. simpl.
    apply step_name_Some in He. by rewrite He.
Qed.

Lemma first_seen_elem k keys : k ∈ first_seen keys ↔ k ∈ keys.
Proof.
  induction keys as [|k' keys IH]; simpl; [done|].
  rewrite !elem_of_cons, list_elem_of_filter, IH.
  destruct (decide (k = k')); naive_solver.
Qed.

Lemma first_seen_NoDup keys : NoDup (first_seen keys).
Proof.
  induction keys as [|k keys IH]; simpl; [constructor|].
  constructor; [|by apply NoDup_filter].
  rewrite list_elem_of_filter. naive_solver.
Qed.

Lemma filter_not_in_snoc (seen l : list jsstring) k :
  filter (λ x, x ∉ seen ++ [k]) l
  = filter (λ x, x ∉ seen) (filter (λ x, x ≠ k) l).
Proof.
  rewrite list_filter_filter. apply list_filter_iff. intros x.
  rewrite elem_of_app, list_elem_of_singleton. naive_solver.
Qed.

Lemma filter_not_in_absorb (seen l : list jsstring) k :
  k ∈ seen →
  filter (λ x, x ∉ seen) (filter (λ x, x ≠ k) l)
  = filter (λ x, x ∉ seen) l.
Proof.
  intros Hk. rewrite list_filter_filter. apply list_filter_iff.
  intros x. naive_solver.
Qed.

Lemma filter_not_in_nil (l : list jsstring) :
  filter (λ x, x ∉ @nil jsstring) l = l.
Proof.
  induction l as [|x l IH]; [done|].
  rewrite filter_cons_True by apply not_elem_of_nil. by f_equal.
Qed.

(** The names of the ledger after a run of events, from any ledger. *)
Lemma step_names_fold events : ∀ acc,
  Forall string_named events →
  step_names (fold_left (λ acc e, onStep_update e acc) events acc)
  = step_names acc
    ++ filter (λ x, x ∉ step_names acc) (first_seen (step_names events)).
Proof.
  induction events as [|e events IH]; intros acc Hall; simpl.
  - by rewrite app_nil_r.
  - apply Forall_cons in Hall as [[n Hn] Hall].
    rewrite IH by done. unfold step_names at 5. simpl. rewrite Hn. simpl.
    fold (step_names events).
    apply step_name_Some in Hn.
    rewrite (step_names_update e acc n Hn).
    destruct (decide (n ∈ step_names acc)) as [Hin|Hin].
    + rewrite filter_cons_False by naive_solver.
      by rewrite filter_not_in_absorb.
    + rewrite filter_cons_True by done.
      rewrite filter_not_in_snoc. by rewrite <- app_assoc.
Qed.

Lemma onStep_update_string_named e prev :
  string_named e → Forall string_named prev →
  Forall string_named (onStep_update e prev).
Proof.
  intros He Hprev. unfold onStep_update.
  destruct (findIndex e prev); [by apply Forall_insert|].
  apply Forall_app. by repeat constructor.
Qed.

Lemma ledger_fold_string_named events : ∀ acc,
  Forall string_named events → Forall string_named acc →
  Forall string_named (fold_left (λ acc e, onStep_update e acc) events acc).
Proof.
  induction events as [|e events IH]; intros acc Hev Hacc; simpl; [done|].
  apply Forall_cons in Hev as [He Hev].
  apply IH; [done|]. by apply onStep_update_string_named.
Qed.

(** In a ledger with at most one record per name, the position of a
    name is the one [findIndex] returns. *)
Lemma findIndex_unique e prev n i r :
  step e = VString n → Forall string_named prev →
  NoDup (step_names prev) →
  prev !! i = Some r → step r = VString n →
  findIndex e prev = Some i.
Proof.
  intros He Hall Hnd Hi Hr. apply (findIndex_Some _ _ n); [done|].
  split; [eauto|]. intros j r' Hj Hlt Hr'.
  assert (step_names prev = (λ s, default [] (step_name s)) <$> prev) as Hn.
  { unfold step_names. clear -Hall. induction Hall as [|x l [m Hx] _ IH];
      simpl; [done|]. rewrite Hx. simpl. by f_equal. }
  rewrite Hn in Hnd.
  assert (j = i); [|lia].
  eapply NoDup_lookup; [exact Hnd|..]; rewrite list_lookup_fmap.
  - rewrite Hj. simpl. apply step_name_Some in Hr'. by rewrite Hr'.
  - rewrite Hi. simpl. apply step_name_Some in Hr. by rewrite Hr.
Qed.

End StepLedger.

(** C1. The [setSteps] updater of [runPipeline]: for an incoming record
    whose step name is the string [n], if the first record named [n] is at
    position [i], the result is the input with position [i] replaced by the
    incoming record; if no record is named [n], the result is the input
    with the incoming record appended.  Consequently the ledger built from
    the empty list by any sequence of string-named step events holds
    string-named records only, no two of the same name, and its names are
    those of the events in the order of their first appearance; in such a
    ledger the position of a name is unique, and it is the one replaced. *)
Theorem StepLedger_reducer
    (prev events : list PipelineStep) (e : PipelineStep) (n : jsstring) :
  step e = VString n →
  Forall string_named events →
  (∀ i r, prev !! i = Some r → step r = VString n →
     (∀ j r', prev !! j = Some r' → (j < i)%nat → step r' ≠ VString n) →
     onStep_update e prev = <[i := e]> prev
     ∧ length (onStep_update e prev) = length prev
     ∧ onStep_update e prev !! i = Some e
     ∧ ∀ j, j ≠ i → onStep_update e prev !! j = prev !! j)
  ∧ ((∀ r, r ∈ prev → step r ≠ VString n) →
     onStep_update e prev = prev ++ [e])
  ∧ Forall string_named (ledger_of events)
  ∧ NoDup (step_names (ledger_of events))
  ∧ step_names (ledger_of events) = first_seen (step_names events)
  ∧ (∀ i r, ledger_of events !! i = Some r → step r = VString n →
       onStep_update e (ledger_of events) = <[i := e]> (ledger_of events)).
Proof.
  intros He Hev.
  assert (Forall string_named (ledger_of events)) as Hnamed
    by (unfold ledger_of; by apply ledger_fold_string_named).
  assert (step_names (ledger_of events) = first_seen (step_names events))
    as Hnames.
  { unfold ledger_of. rewrite step_names_fold by done. simpl.
    apply filter_not_in_nil. }
  split_and!; [| |done| |done|].
  - intros i r Hi Hr Hleast.
    assert (findIndex e prev = Some i) as Hf
      by (apply (findIndex_Some _ _ n); eauto).
    unfold onStep_update. rewrite Hf. split_and!; [done|..].
    + by rewrite length_insert.
    + apply list_lookup_insert_eq. eauto using lookup_lt_Some.
    + intros j Hj. by apply list_lookup_insert_ne.
  - intros Hnone. unfold onStep_update.
    by rewrite (proj2 (findIndex_None e prev n He)).
  - rewrite Hnames. apply first_seen_NoDup.
  - intros i r Hi Hr. unfold onStep_update.
    rewrite (findIndex_unique e (ledger_of events) n i r); try done.
    rewrite Hnames. apply first_seen_NoDup.
Qed.

(** A [running] record for [scrape] replaced by the [ok] one, as the
    witness of C1. *)
Lemma StepLedger_reducer_witness :
  let running := mkStep (VString (js "scrape")) (VString (js "running"))
                   VUndefined VUndefined in
  let finished := mkStep (VString (js "scrape")) (VString (js "ok"))
                    (Scenario.number 120) VUndefined in
  onStep_update finished [running] = [finished]
  ∧ step_names (ledger_of [running; finished]) = [js "scrape"].
Proof.
  intros running finished.
  assert (Forall string_named [running; finished]) as Hnamed
    by (repeat constructor; by eexists).
  destruct (StepLedger_reducer [running] [running; finished] finished
              (js "scrape") eq_refl Hnamed)
    as (Hreplace & _ & _ & _ & Horder & _).
  split; [|exact Horder].
  refine (proj1 (Hreplace 0%nat running eq_refl eq_refl _)).
  intros j r' _ Hj. inversion Hj.
Defined.

(** ** The frame decoder *)

Section Frames.
Import Encoding.
Implicit Types (s a b buffer : jsstring) (c sep : N).

Lemma split_not_nil sep s : split sep s ≠ [].
Proof.
  destruct s as [|c s]; simpl; [done|].
  destruct (c =? sep); [done|]. by destruct (split sep s).
Qed.

Lemma pop_split_nil sep : pop (split sep []) = ([], []).
Proof. reflexivity. Qed.

Lemma pop_split_sep sep s :
  pop (split sep (sep :: s))
  = ([] :: (pop (split sep s)).1, (pop (split sep s)).2).
Proof.
  unfold pop. simpl. rewrite N.eqb_refl.
  pose proof (split_not_nil sep s). by destruct (split sep s).
Qed.

Lemma pop_split_other sep c s :
  c ≠ sep →
  pop (split sep (c :: s))
  = match (pop (split sep s)).1 with
    | [] => ([], c :: (pop (split sep s)).2)
    | line :: lines => ((c :: line) :: lines, (pop (split sep s)).2)
    end.
Proof.
  intros Hc. unfold pop. simpl.
  apply N.eqb_neq in Hc. rewrite Hc.
  pose proof (split_not_nil sep s).
  destruct (split sep s) as [|x [|y l]]; done.
Qed.

(** Splitting a text that arrives in two parts: the complete lines of
    the first part, then the lines of what it left over followed by the
    second part. *)
Lemma pop_split_app sep a b :
  pop (split sep (a ++ b))
  = ((pop (split sep a)).1
       ++ (pop (split sep ((pop (split sep a)).2 ++ b))).1,
     (pop (split sep ((pop (split sep a)).2 ++ b))).2).
Proof.
  induction a as [|c a IH].
  - rewrite pop_split_nil. cbn [fst snd app]. apply surjective_pairing.
  - simpl app at 1. destruct (decide (c = sep)) as [->|Hc].
    + rewrite !pop_split_sep, IH. reflexivity.
    + rewrite (pop_split_other _ _ (a ++ b) Hc), (pop_split_other _ _ a Hc).
      rewrite IH. cbn [fst snd].
      destruct (pop (split sep a)).1 as [|line lines]; cbn [fst snd app].
      * rewrite (pop_split_other _ _ _ Hc). apply surjective_pairing.
      * reflexivity.
Qed.

Lemma split_no_sep sep s : sep ∉ s → split sep s = [s].
Proof.
  induction s as [|c s IH]; [done|].
  rewrite not_elem_of_cons. intros [Hc Hs]. simpl.
  assert ((c =? sep) = false) as -> by (apply N.eqb_neq; congruence).
  by rewrite IH.
Qed.

Lemma pop_split_rest_no_sep sep s : sep ∉ (pop (split sep s)).2.
Proof.
  induction s as [|c s IH].
  - rewrite pop_split_nil. apply not_elem_of_nil.
  - destruct (decide (c = sep)) as [->|Hc].
    + by rewrite pop_split_sep.
    + rewrite (pop_split_other _ _ _ Hc).
      destruct (pop (split sep s)).1; simpl; [|done].
      rewrite not_elem_of_cons. split; [congruence|done].
Qed.

Lemma process_queue_app d (a b : list byte) :
  process_queue d (a ++ b)
  = ((process_queue (process_queue d a).1 b).1,
     (process_queue d a).2 ++ (process_queue (process_queue d a).1 b).2).
Proof.
  revert d. induction a as [|x a IH]; intros d; simpl.
  - by destruct (process_queue d b).
  - destruct (process_byte d (Byte.to_N x)) as [d' out].
    rewrite IH. destruct (process_queue d' a) as [d'' out']. simpl.
    by rewrite app_assoc.
Qed.

Lemma serialize_app seen (a b : list N) :
  serialize seen (a ++ b)
  = ((serialize (serialize seen a).1 b).1,
     (serialize seen a).2 ++ (serialize (serialize seen a).1 b).2).
Proof.
  destruct a as [|cp a]; simpl.
  - by destruct (serialize seen b).
  - destruct seen; simpl.
    + by destruct b.
    + destruct (cp =? 0xFEFF); by destruct b.
Qed.

(** Decoding is incremental: two chunks decode to the text of their
    concatenation. *)
Lemma decode_app td (a b : list byte) :
  decode td (a ++ b)
  = ((decode (decode td a).1 b).1,
     (decode td a).2 ++ (decode (decode td a).1 b).2).
Proof.
  unfold decode. rewrite process_queue_app.
  destruct (process_queue (decoder td) a) as [d1 o1]. simpl.
  rewrite serialize_app.
  destruct (serialize (BOM_seen td) o1) as [s1 t1]. simpl.
  destruct (process_queue d1 b) as [d2 o2]. simpl.
  destruct (serialize s1 o2) as [s2 t2]. simpl.
  by rewrite flat_map_app.
Qed.

Lemma decode_nil td : decode td [] = (td, []).
Proof. unfold decode. simpl. by destruct td. Qed.

Variable P : Platform.

(** No line makes the loop body throw. *)
Lemma process_line_Normal line :
  ∃ calls, Api.process_line P line = Normal calls.
Proof.
  unfold Api.process_line.
  destruct (negb (startsWith _ line)); [by eexists|].
  destruct (negb (truthy _)); [by eexists|].
  destruct (Api.dispatch _ _); by eexists.
Qed.

Lemma process_lines_calls lines :
  Api.process_lines P lines = (flat_map (Api.calls_of P) lines, Normal ()).
Proof.
  induction lines as [|line lines IH]; simpl; [done|].
  unfold Api.calls_of at 1.
  destruct (process_line_Normal line) as [calls ->]. by rewrite IH.
Qed.

(** The read loop calls the callbacks of the complete lines of the text
    buffered and decoded so far, whatever the chunking. *)
Lemma read_loop_lines chunks ending : ∀ td buffer,
  0x0A ∉ buffer →
  Api.read_loop P td buffer chunks ending
  = (flat_map (Api.calls_of P)
       (pop (split 0x0A (buffer ++ (decode td (concat chunks)).2))).1,
     Api.ending_of ending).
Proof.
  induction chunks as [|value rest IH]; intros td buffer Hbuf;
    cbn [Api.read_loop concat].
  - rewrite decode_nil. cbn [snd]. rewrite app_nil_r.
    by rewrite (split_no_sep _ _ Hbuf).
  - unfold Api.read_chunk. rewrite decode_app.
    destruct (decode td value) as [td' text]. cbn [fst snd].
    rewrite app_assoc, (pop_split_app _ (buffer ++ text)).
    destruct (pop (split 0x0A (buffer ++ text))) as [lines buffer'] eqn:E.
    cbn [fst snd]. rewrite process_lines_calls, flat_map_app.
    rewrite IH; [done|]. change buffer' with (lines, buffer').2.
    rewrite <- E. apply pop_split_rest_no_sep.
Qed.

End Frames.

(** C2. However the bytes of a stream are cut into chunks (inside a
    multi-byte character, inside a JSON body, with empty chunks), the read
    loop of [analyzeUrlV2] calls the same callbacks with the same
    arguments in the same order, and ends the same way, as for the whole
    stream in one chunk; so does [analyzeUrlV2]. *)
Theorem chunking_invariance
    (P : Platform) (chunks : list (list byte)) (ending : option thrown)
    (status : N) (json : completion value) :
  Api.read_loop P Encoding.TextDecoder_new [] chunks ending
  = Api.read_loop P Encoding.TextDecoder_new [] [concat chunks] ending
  ∧ Api.analyzeUrlV2 P (Normal
      {| Api.ok := true; Api.status := status; Api.json := json;
         Api.body := Some (chunks, ending) |})
    = Api.analyzeUrlV2 P (Normal
      {| Api.ok := true; Api.status := status; Api.json := json;
         Api.body := Some ([concat chunks], ending) |}).
Proof.
  assert (Api.read_loop P Encoding.TextDecoder_new [] chunks ending
          = Api.read_loop P Encoding.TextDecoder_new [] [concat chunks] ending)
    as H.
  { rewrite !read_loop_lines by apply not_elem_of_nil.
    cbn [concat]. by rewrite app_nil_r. }
  split; [done|]. cbn [Api.analyzeUrlV2 Api.ok Api.body negb]. by rewrite H.
Qed.

(** ** The event parser *)

Section Parser.
Variable P : Platform.

Lemma strict_equal_false_string (v : value) (n : jsstring) :
  v ≠ VString n → strict_equal v (VString n) = false.
Proof.
  intros Hv. destruct (strict_equal v (VString n)) eqn:E; [|done].
  by apply strict_equal_string in E.
Qed.

Lemma dispatch_unknown_type jsonStr msg :
  JSON_parse P jsonStr = Normal msg → unknown_type msg →
  try_catch (Api.dispatch P jsonStr) (λ _, mret []) = Normal [].
Proof.
  intros Hparse Hunknown. unfold Api.dispatch. rewrite Hparse.
  cbn [mbind completion_bind].
  assert (get_or_throw P msg (js "type")
          = match get msg (js "type") with
            | Some x => Normal x
            | None => Throw (ErrorObject (TypeError_message P (js "type")))
            end) as -> by done.
  destruct (get msg (js "type")) as [type|] eqn:Htype; [|done].
  destruct (Hunknown type Htype) as (Hstep & Hresult & Herror).
  cbn [mbind completion_bind].
  by rewrite !strict_equal_false_string.
Qed.

Lemma process_line_dropped line :
  dropped P line → Api.process_line P line = Normal [].
Proof.
  unfold dropped, payload, Api.process_line.
  intros [Hprefix|[Hempty|[[e Hthrow]|(msg & Hparse & Hunknown)]]].
  - by rewrite Hprefix.
  - destruct (negb (startsWith _ line)); [done|]. by rewrite Hempty.
  - destruct (negb (startsWith _ line)); [done|].
    destruct (negb (truthy _)); [done|].
    unfold Api.dispatch. by rewrite Hthrow.
  - destruct (negb (startsWith _ line)); [done|].
    destruct (negb (truthy _)); [done|].
    by eapply dispatch_unknown_type.
Qed.

End Parser.

(** C3. A line that does not start with [data: ], whose payload is empty
    after trimming, whose payload [JSON.parse] rejects, or whose parsed
    message has no [type] or a [type] other than [step], [result] and
    [error], makes the loop body call no callback and throw nothing; the
    loop goes on as if the line were not there, whatever lines come before
    and after, and no line at all makes the loop over the lines of a
    chunk end with an exception. *)
Theorem EventParser_drops (P : Platform) (line : jsstring) :
  dropped P line →
  Api.process_line P line = Normal []
  ∧ (∀ before after,
       Api.process_lines P (before ++ line :: after)
       = Api.process_lines P (before ++ after))
  ∧ (∀ lines, (Api.process_lines P lines).2 = Normal ())
  ∧ (∀ td buffer value, (Api.read_chunk P td buffer value).2.2 = Normal ()).
Proof.
  intros Hdrop. pose proof (process_line_dropped P line Hdrop) as Hline.
  split_and!; [done|..].
  - intros before after. rewrite !process_lines_calls. f_equal.
    rewrite !flat_map_app. f_equal. simpl.
    unfold Api.calls_of at 1. by rewrite Hline.
  - intros lines. by rewrite process_lines_calls.
  - intros td buffer value. unfold Api.read_chunk.
    destruct (Encoding.decode td value) as [td' text].
    destruct (pop _) as [lines buffer']. by rewrite process_lines_calls.
Qed.

(** A line that is no event line, as the witness of C3. *)
Lemma EventParser_drops_witness :
  dropped Scenario.platform (js ": keep-alive")
  ∧ Api.process_line Scenario.platform (js ": keep-alive") = Normal [].
Proof.
  assert (dropped Scenario.platform (js ": keep-alive")) as H
    by (left; reflexivity).
  split; [exact H|].
  exact (proj1 (EventParser_drops Scenario.platform (js ": keep-alive") H)).
Defined.

(** ** The duplicate gate and the orchestrator *)

Section Orchestrator.
Import UseEnrichment.
Variables (P : Platform) (net : Network).
Implicit Types (st : State) (url : jsstring).

Lemma runPipeline_requests url st :
  (runPipeline P net url st).2 = [AnalyzeStreamRequest url (runPipeline_begin st)].
Proof.
  unfold runPipeline. by destruct (Api.analyzeUrlV2 _ _) as [calls []].
Qed.

Lemma runPipeline_isLoading url st :
  isLoading (runPipeline P net url st).1 = false.
Proof.
  unfold runPipeline. by destruct (Api.analyzeUrlV2 _ _) as [calls []].
Qed.

Lemma runPipeline_begin_cleared st : loading_and_cleared (runPipeline_begin st).
Proof. by repeat split. Qed.


Lemma call_duplicate c st : duplicate (call c st) = duplicate st.
Proof. by destruct c. Qed.

Lemma fold_call_duplicate calls : ∀ st,
  duplicate (fold_left (λ st c, call c st) calls st) = duplicate st.
Proof.
  induction calls as [|c calls IH]; intros st; simpl; [done|].
  by rewrite IH, call_duplicate.
Qed.

(** A run leaves the duplicate display cleared. *)
Lemma runPipeline_duplicate url st :
  duplicate (runPipeline P net url st).1 = VNull.
Proof.
  unfold runPipeline.
  destruct (Api.analyzeUrlV2 _ _) as [calls []]; simpl;
    by rewrite fold_call_duplicate.
Qed.

(** [analyze] when the lookup resolves to a result whose [exists] is
    truthy: the result and the URL are stored, nothing else. *)
Lemma analyze_prompting url st dupResult found :
  lookup P net url = Normal dupResult →
  get dupResult (js "exists") = Some found →
  truthy found = true →
  store (analyze P net url st)
  = setPendingUrl (Some url) (setDuplicate dupResult st)
  ∧ pipeline_urls (requests (analyze P net url st)) = []
  ∧ settled (analyze P net url st) = Normal ().
Proof.
  unfold lookup, analyze. intros Hlookup Hexists Htruthy.
  destruct (Api.checkDuplicate _ _) as [asked dup]. simpl in Hlookup.
  subst dup. cbn [mbind completion_bind]. unfold get_or_throw.
  rewrite Hexists. cbn [mbind completion_bind mret completion_ret].
  rewrite Htruthy. by destruct asked.
Qed.

(** [analyze] when the lookup resolves to a result whose [exists] is
    falsy: the pipeline runs with the URL as submitted. *)
Lemma analyze_clear url st dupResult found :
  lookup P net url = Normal dupResult →
  get dupResult (js "exists") = Some found →
  truthy found = false →
  store (analyze P net url st) = (runPipeline P net url st).1
  ∧ pipeline_urls (requests (analyze P net url st)) = [url]
  ∧ settled (analyze P net url st) = Normal ().
Proof.
  unfold lookup, analyze. intros Hlookup Hexists Hfalsy.
  destruct (Api.checkDuplicate _ _) as [asked dup]. simpl in Hlookup.
  subst dup. cbn [mbind completion_bind]. unfold get_or_throw.
  rewrite Hexists. cbn [mbind completion_bind mret completion_ret].
  rewrite Hfalsy. pose proof (runPipeline_requests url st) as Hsent.
  destruct (runPipeline P net url st) as [st' sent]. simpl in *. subst sent.
  by destruct asked.
Qed.

(** The lookup failures [checkDuplicate] recovers from: a [fetch] that
    rejects and a response that is not [ok] resolve to [{exists: false}]. *)
Lemma lookup_recovers url :
  (∃ e, check_duplicate net (domain_of P url) = Throw e)
  ∨ (∃ r, check_duplicate net (domain_of P url) = Normal r
          ∧ Api.ok r = false) →
  lookup P net url = Normal Api.exists_false.
Proof.
  unfold lookup, Api.checkDuplicate.
  intros [[e ->]|(r & -> & Hok)]; simpl.
  - by destruct (has_lone_surrogate _).
  - rewrite Hok. by destruct (has_lone_surrogate _).
Qed.

Lemma confirmAnalyze_pending url st :
  pendingUrl st = Some url → url ≠ [] →
  confirmAnalyze P net st
  = {| store := setPendingUrl None
                  (runPipeline P net url (setDuplicate VNull st)).1;
       requests := (runPipeline P net url (setDuplicate VNull st)).2;
       settled := Normal () |}.
Proof.
  intros Hpending Hurl. unfold confirmAnalyze. rewrite Hpending.
  destruct url as [|c url]; [done|]. simpl.
  by destruct (runPipeline _ _ _ _).
Qed.

End Orchestrator.

Section Gate.
Import UseEnrichment.

(** C4 (as amended). When the lookup of [analyze(url)] reports
    [exists = true], for a [url] that is not the empty string: the store
    exposes the lookup's result and holds [url] as pending, [isLoading] is
    what it was, and no pipeline request is made.  From there
    [dismissDuplicate()], which only sets two cells, clears the duplicate
    display and the pending slot; [confirmAnalyze()] makes exactly one
    pipeline request, for [url], issued with the duplicate display already
    cleared and the pending slot still set, and leaves both cleared.
    [confirmAnalyze()] with nothing pending changes nothing and makes no
    request. *)
Theorem DuplicateGate_prompt
    (P : Platform) (net : Network) (url : jsstring) (st : State)
    (dupResult : value) :
  lookup P net url = Normal dupResult →
  get dupResult (js "exists") = Some (VBool true) →
  url ≠ [] →
  let prompting := store (analyze P net url st) in
  let confirmed := confirmAnalyze P net prompting in
  duplicate prompting = dupResult
  ∧ pendingUrl prompting = Some url
  ∧ isLoading prompting = isLoading st
  ∧ pipeline_urls (requests (analyze P net url st)) = []
  ∧ duplicate (dismissDuplicate prompting) = VNull
  ∧ pendingUrl (dismissDuplicate prompting) = None
  ∧ (∃ at_request,
       requests confirmed = [AnalyzeStreamRequest url at_request]
       ∧ duplicate at_request = VNull
       ∧ pendingUrl at_request = Some url)
  ∧ duplicate (store confirmed) = VNull
  ∧ pendingUrl (store confirmed) = None
  ∧ (∀ idle, pendingUrl idle = None →
       confirmAnalyze P net idle
       = {| store := idle; requests := []; settled := Normal () |}).
Proof.
  intros Hlookup Hexists Hurl prompting confirmed.
  destruct (analyze_prompting P net url st dupResult (VBool true))
    as (Hstore & Hnone & _); [done..|].
  assert (pendingUrl prompting = Some url) as Hpending
    by (subst prompting; by rewrite Hstore).
  subst confirmed.
  rewrite (confirmAnalyze_pending P net url prompting Hpending Hurl).
  cbn [store requests]. rewrite runPipeline_requests.
  subst prompting. rewrite Hstore. split_and!; try done.
  - by eexists.
  - apply runPipeline_duplicate.
  - intros idle Hidle. unfold confirmAnalyze. by rewrite Hidle.
Qed.

(** The scenario of the specification, as the witness of C4. *)
Lemma DuplicateGate_prompt_witness :
  let url := js "https://shop.com/products" in
  let prompting :=
    store (analyze Scenario.platform Scenario.net_duplicate url initial) in
  duplicate prompting = Scenario.known_shop
  ∧ isLoading prompting = false
  ∧ pipeline_urls
      (requests (confirmAnalyze Scenario.platform Scenario.net_duplicate
                   prompting)) = [url].
Proof.
  intros url prompting.
  assert (url ≠ []) as Hurl by discriminate.
  destruct (DuplicateGate_prompt Scenario.platform Scenario.net_duplicate
              url initial Scenario.known_shop eq_refl eq_refl Hurl)
    as (Hdup & _ & Hload & _ & _ & _ & (at_request & Hsent & _) & _).
  split; [exact Hdup|]. split; [exact Hload|].
  fold prompting in Hsent. rewrite Hsent. reflexivity.
Defined.

(** C4 as stated fails for the empty URL: the lookup reports
    [exists = true], the store exposes the result and holds the empty
    string as pending, and [confirmAnalyze()] then does nothing: the
    duplicate display stays and no pipeline request is made. *)
Lemma DuplicateGate_empty_url_counterexample :
  let prompting :=
    store (analyze Scenario.platform Scenario.net_duplicate [] initial) in
  let confirmed :=
    confirmAnalyze Scenario.platform Scenario.net_duplicate prompting in
  lookup Scenario.platform Scenario.net_duplicate [] = Normal Scenario.known_shop
  ∧ get Scenario.known_shop (js "exists") = Some (VBool true)
  ∧ duplicate prompting = Scenario.known_shop
  ∧ pendingUrl prompting = Some []
  ∧ ¬ (duplicate (store confirmed) = VNull
       ∧ pipeline_urls (requests confirmed) = [[]]).
Proof.
  split_and!; try reflexivity. intros [Hcleared _]. discriminate Hcleared.
Qed.

(** C10. When the lookup of [analyze(url)] reports [exists = true], only
    [duplicate] and the pending slot are set: [results], [steps], [error]
    and [isLoading] are what they were, so what a previous run left stays
    observable, and no pipeline request is made. *)
Theorem duplicate_prompt_frame
    (P : Platform) (net : Network) (url : jsstring) (st : State)
    (dupResult : value) :
  lookup P net url = Normal dupResult →
  get dupResult (js "exists") = Some (VBool true) →
  let prompting := store (analyze P net url st) in
  duplicate prompting = dupResult
  ∧ pendingUrl prompting = Some url
  ∧ results prompting = results st
  ∧ steps prompting = steps st
  ∧ error prompting = error st
  ∧ isLoading prompting = isLoading st
  ∧ pipeline_urls (requests (analyze P net url st)) = [].
Proof.
  intros Hlookup Hexists prompting.
  destruct (analyze_prompting P net url st dupResult (VBool true))
    as (Hstore & Hnone & _); [done..|].
  subst prompting. by rewrite Hstore.
Qed.

(** A prompt after a finished run, as the witness of C10: the results and
    the step of the run are still there. *)
Lemma duplicate_prompt_frame_witness :
  let finished :=
    store (analyze Scenario.platform Scenario.net_clear
             (js "https://x.com/") initial) in
  let prompting :=
    store (analyze Scenario.platform Scenario.net_duplicate
             (js "https://shop.com") finished) in
  results finished = Scenario.result_data
  ∧ results prompting = Scenario.result_data
  ∧ length (steps prompting) = 1%nat
  ∧ duplicate prompting = Scenario.known_shop.
Proof.
  intros finished prompting.
  destruct (duplicate_prompt_frame Scenario.platform Scenario.net_duplicate
              (js "https://shop.com") finished Scenario.known_shop
              eq_refl eq_refl)
    as (Hdup & _ & Hresults & Hsteps & _).
  fold prompting in Hdup, Hresults, Hsteps.
  split; [reflexivity|]. split; [rewrite Hresults; reflexivity|].
  split; [rewrite Hsteps; reflexivity|exact Hdup].
Defined.

End Gate.

Section Runs.
Import UseEnrichment.

(** C5, where it holds: when the lookup resolves to a result whose
    [exists] is [false], when its [fetch] rejects, and when its response
    is not [ok], [analyze(url)] runs the pipeline with the URL as
    submitted and shows nothing of the lookup: the store is the one the
    run leaves. *)
Lemma analyze_runs_when_clear
    (P : Platform) (net : Network) (url : jsstring) (st : State) :
  lookup P net url = Normal Api.exists_false
  ∨ (∃ e, check_duplicate net (domain_of P url) = Throw e)
  ∨ (∃ r, check_duplicate net (domain_of P url) = Normal r
          ∧ Api.ok r = false) →
  store (analyze P net url st) = (runPipeline P net url st).1
  ∧ pipeline_urls (requests (analyze P net url st)) = [url]
  ∧ settled (analyze P net url st) = Normal ().
Proof.
  intros H.
  assert (lookup P net url = Normal Api.exists_false) as Hlookup.
  { destruct H as [H|H]; [done|]. by apply lookup_recovers. }
  by apply (analyze_clear P net url st Api.exists_false (VBool false)).
Qed.

(** C5, where the code departs from it: a lookup response that is [ok]
    and whose body is not JSON.  [checkDuplicate] returns the promise of
    [response.json()] out of its [try] block, the rejection is not caught,
    and [analyze] rejects with it: the store is untouched and no pipeline
    request is made. *)
Theorem lookup_not_json_rejects :
  analyze Scenario.platform Scenario.net_lookup_not_json
    (js "https://shop.com") initial
  = {| store := initial;
       requests := [CheckDuplicateRequest (js "shop.com")];
       settled := Throw Scenario.syntax_error |}.
Proof. reflexivity. Qed.

(** The same for every platform, network, URL and store. *)
Lemma lookup_json_rejection_escapes
    (P : Platform) (net : Network) (url : jsstring) (st : State)
    (r : Api.Response) (e : thrown) :
  check_duplicate net (domain_of P url) = Normal r →
  Api.ok r = true → Api.json r = Throw e →
  has_lone_surrogate (domain_of P url) = false →
  analyze P net url st
  = {| store := st; requests := [CheckDuplicateRequest (domain_of P url)];
       settled := Throw e |}.
Proof.
  intros Hfetch Hok Hjson Huri. unfold analyze, Api.checkDuplicate.
  rewrite Hfetch, Huri. simpl. rewrite Hok, Hjson. reflexivity.
Qed.

(** C7. [runPipeline] makes one request, with the store as the five
    setters leave it: [isLoading] true and [error], [results], [steps],
    [duplicate] cleared; and however [analyzeUrlV2] settles, it leaves
    [isLoading] false.  So every pipeline request [analyze] or
    [confirmAnalyze] makes is made in such a store, and the operation
    leaves [isLoading] false. *)
Theorem runs_load_then_unload
    (P : Platform) (net : Network) (url : jsstring) (st : State) :
  (runPipeline P net url st).2
  = [AnalyzeStreamRequest url (runPipeline_begin st)]
  ∧ loading_and_cleared (runPipeline_begin st)
  ∧ isLoading (runPipeline P net url st).1 = false
  ∧ Forall (sent_loading (store (analyze P net url st)))
      (requests (analyze P net url st))
  ∧ Forall (sent_loading (store (confirmAnalyze P net st)))
      (requests (confirmAnalyze P net st)).
Proof.
  assert (∀ u s, sent_loading (runPipeline P net u s).1
                   (AnalyzeStreamRequest u (runPipeline_begin s))) as Hsent.
  { intros u s. split; [apply runPipeline_begin_cleared|].
    apply runPipeline_isLoading. }
  split_and!.
  - apply runPipeline_requests.
  - apply runPipeline_begin_cleared.
  - apply runPipeline_isLoading.
  - unfold analyze.
    destruct (Api.checkDuplicate _ _) as [asked dup].
    assert (∀ final, Forall (sent_loading final)
              match asked with
              | Some d => [CheckDuplicateRequest d]
              | None => []
              end) as Hlookups by (intros; destruct asked; by repeat constructor).
    destruct dup as [dupResult|e]; cbn [mbind completion_bind]; [|done].
    unfold get_or_throw. destruct (get dupResult _) as [found|];
      cbn [mbind completion_bind mret completion_ret]; [|done].
    destruct (truthy found); [done|].
    pose proof (runPipeline_requests P net url st) as Hreq.
    pose proof (Hsent url st) as Hs.
    destruct (runPipeline P net url st) as [st' sent]. simpl in *.
    subst sent. apply Forall_app. split; [apply Hlookups|].
    apply Forall_cons. split; [exact Hs|constructor].
  - unfold confirmAnalyze. destruct (pendingUrl st) as [u|]; [|done].
    destruct (truthy _); [|done].
    pose proof (runPipeline_requests P net u (setDuplicate VNull st)) as Hreq.
    pose proof (Hsent u (setDuplicate VNull st)) as Hs.
    destruct (runPipeline P net u _) as [st' sent]. simpl in *.
    subst sent. apply Forall_cons. split; [exact Hs|constructor].
Qed.

End Runs.

Section Failures.
Import UseEnrichment.

Lemma runPipeline_throws
    (P : Platform) (net : Network) (url : jsstring) (st : State)
    (m : jsstring) :
  Api.analyzeUrlV2 P (analyze_stream net url) = ([], Throw (ErrorObject m)) →
  fails_with P net url st m.
Proof.
  intros H. unfold fails_with, runPipeline. rewrite H. by simpl.
Qed.

(** C6 (as amended). When the response of the pipeline request is not
    [ok], whatever its body, [analyzeUrlV2] calls no callback, [onError]
    included, and throws an [Error]; [runPipeline] puts its message in
    [error], with [results] null and [isLoading] false.  The message is
    the [detail] of the JSON body when that is a non-empty string;
    [Analysis failed] when the body is not JSON; [HTTP <status>: Analysis
    failed] when the body is a JSON value other than [null] whose
    [detail] is absent or falsy. *)
Theorem non_success_response
    (P : Platform) (net : Network) (url : jsstring) (st : State)
    (r : Api.Response) :
  analyze_stream net url = Normal r →
  Api.ok r = false →
  (∃ m, fails_with P net url st m)
  ∧ (∀ v d, Api.json r = Normal v →
     get v (js "detail") = Some (VString d) → d ≠ [] →
     fails_with P net url st d)
  ∧ (∀ e, Api.json r = Throw e →
     fails_with P net url st (js "Analysis failed"))
  ∧ (∀ v, Api.json r = Normal v → v ≠ VNull → v ≠ VUndefined →
     (∀ d, get v (js "detail") = Some d → truthy d = false) →
     fails_with P net url st
       (js "HTTP " ++ decimal (Api.status r) ++ js ": Analysis failed")).
Proof.
  intros Hfetch Hok. split_and!.
  - assert (∃ m, Api.analyzeUrlV2 P (analyze_stream net url)
                 = ([], Throw (ErrorObject m))) as [m Hm].
    { rewrite Hfetch. unfold Api.analyzeUrlV2. rewrite Hok. cbn [negb].
      destruct (get_or_throw P _ (js "detail")) as [d|[m|]] eqn:E;
        cbn [mbind completion_bind]; try by eexists.
      unfold get_or_throw in E. by destruct (get _ _). }
    exists m. by apply runPipeline_throws.
  - intros v d Hjson Hdetail Hd. apply runPipeline_throws.
    rewrite Hfetch. unfold Api.analyzeUrlV2. rewrite Hok, Hjson. simpl.
    unfold get_or_throw. rewrite Hdetail. simpl.
    unfold or_else. by destruct d.
  - intros e Hjson. apply runPipeline_throws.
    rewrite Hfetch. unfold Api.analyzeUrlV2. by rewrite Hok, Hjson.
  - intros v Hjson Hnull Hundef Hfalsy.
    assert (∃ d, get v (js "detail") = Some d) as [d Hdetail]
      by (destruct v; by eauto).
    apply runPipeline_throws.
    rewrite Hfetch. unfold Api.analyzeUrlV2. rewrite Hok, Hjson. simpl.
    unfold get_or_throw. rewrite Hdetail. simpl.
    unfold or_else. by rewrite (Hfalsy d Hdetail).
Qed.

(** Status 500 with a body whose [detail] is [boom], as the witness of C6:
    [error] is exactly [boom], [results] stays null, [isLoading] ends
    false. *)
Lemma non_success_response_witness :
  let after :=
    (runPipeline Scenario.platform (Scenario.net_failing (Normal Scenario.boom))
       (js "https://x.com/") initial).1 in
  error after = VString (js "boom")
  ∧ results after = VNull
  ∧ isLoading after = false.
Proof.
  intros after.
  assert (js "boom" ≠ []) as Hboom by discriminate.
  destruct (non_success_response Scenario.platform
              (Scenario.net_failing (Normal Scenario.boom))
              (js "https://x.com/") initial _ eq_refl eq_refl)
    as (_ & Hdetail & _ & _).
  destruct (Hdetail Scenario.boom (js "boom") eq_refl eq_refl Hboom)
    as (_ & Herror & Hresults & Hloading).
  exact (conj Herror (conj Hresults Hloading)).
Defined.

(** C6 as stated fails for status 500 with the body [{}]: there is no
    [detail], and the message is [HTTP 500: Analysis failed], not the
    generic [Analysis failed]. *)
Lemma generic_message_counterexample :
  let net := Scenario.net_failing (Normal (VObject [])) in
  let after :=
    (runPipeline Scenario.platform net (js "https://x.com/") initial).1 in
  get (VObject []) (js "detail") = Some VUndefined
  ∧ error after = VString (js "HTTP 500: Analysis failed")
  ∧ error after ≠ VString (Spec.failure_message None).
Proof. split_and!; [reflexivity..|discriminate]. Qed.

End Failures.

Section Domain.
Import UseEnrichment.
Implicit Types s prefix : jsstring.

Lemma startsWith_app prefix suffix s :
  startsWith (prefix ++ suffix) s
  = startsWith prefix s && startsWith suffix (drop (length prefix) s).
Proof.
  revert s. induction prefix as [|p prefix IH]; intros s; simpl; [done|].
  destruct s as [|c s]; simpl; [done|].
  rewrite IH. by destruct (p =? c).
Qed.

(** The regular expression removes what the specification calls a leading
    scheme. *)
Lemma replace_scheme_strip s : replace_scheme s = Spec.strip_scheme s.
Proof.
  unfold replace_scheme, Spec.strip_scheme.
  change (js "https://") with (js "http" ++ js "s" ++ js "://").
  change (js "http://") with (js "http" ++ js "://").
  rewrite !startsWith_app. cbn [length js].
  change (length (js "http")) with 4%nat.
  change (length (js "s")) with 1%nat.
  destruct (startsWith (js "http") s),
    (startsWith (js "s") (drop 4 s)),
    (startsWith (js "://") (drop 1 (drop 4 s))),
    (startsWith (js "://") (drop 4 s)); reflexivity.
Qed.

Lemma split_head s : hd [] (split 0x2F s) = Spec.before_first_slash s.
Proof.
  induction s as [|c s IH]; simpl; [done|].
  destruct (c =? 47); [done|].
  rewrite <- IH. by destruct (split 47 s).
Qed.

(** C8 (as amended). The lookup key of [analyze(url)] is derived from
    [url] with the white space at both ends removed: the leading
    [http://] or [https://] is stripped, the substring before the first
    [/] is taken and lowercased.  For [https://Example.COM/path?x=1] it is
    [example.com]. *)
Theorem domain_of_trimmed (P : Platform) (url : jsstring) :
  domain_of P url = Spec.domain P (trim url)
  ∧ domain_of P (js "https://Example.COM/path?x=1") = js "example.com".
Proof.
  split; [|reflexivity].
  unfold domain_of, Spec.domain. by rewrite replace_scheme_strip, split_head.
Qed.

(** C8 as stated fails for a URL that starts with a space: the code
    trims it and finds the host, the derivation as worded stops at the
    colon of the scheme. *)
Lemma domain_untrimmed_counterexample :
  domain_of Scenario.platform (js " https://a.com") = js "a.com"
  ∧ Spec.domain Scenario.platform (js " https://a.com") = js " https:"
  ∧ domain_of Scenario.platform (js " https://a.com")
    ≠ Spec.domain Scenario.platform (js " https://a.com").
Proof. split_and!; [reflexivity..|discriminate]. Qed.

(** C9 (as amended). [reset()] sets [results], [steps], [error] and
    [duplicate] to their initial values and clears the pending slot, in
    every store; [isLoading] it leaves as it is, so the store is the
    initial one exactly when no run is in flight. *)
Theorem reset_clears (st : State) :
  results (reset st) = VNull
  ∧ steps (reset st) = []
  ∧ error (reset st) = VNull
  ∧ duplicate (reset st) = VNull
  ∧ pendingUrl (reset st) = None
  ∧ isLoading (reset st) = isLoading st
  ∧ reset st = (if isLoading st then setIsLoading true initial else initial).
Proof. split_and!; try reflexivity. by destruct st as [? ? [] ? ? ?]. Qed.

(** C9 as stated fails while a run is in flight, for instance once the
    pipeline has reported an error and the retry button that calls
    [reset] is shown: [isLoading] is true and stays true. *)
Lemma reset_in_flight_counterexample :
  isLoading Scenario.in_flight_with_error = true
  ∧ error Scenario.in_flight_with_error = VString (js "boom")
  ∧ isLoading (reset Scenario.in_flight_with_error) = true
  ∧ reset Scenario.in_flight_with_error ≠ initial.
Proof. split_and!; [reflexivity..|discriminate]. Qed.

End Domain.

(** ** The scenarios of the specification *)

Section Scenarios.
Import UseEnrichment.

(** Three events on the stream, the second frame cut in two: one step
    record, [scrape] with status [ok] and 120 ms, the results of the
    [result] event, no error, and [isLoading] false. *)
Example three_events_scenario :
  store (analyze Scenario.platform Scenario.net_clear (js "https://x.com/")
           initial)
  = {| results := Scenario.result_data;
       steps := [mkStep (VString (js "scrape")) (VString (js "ok"))
                   (Scenario.number 120) VUndefined];
       isLoading := false; error := VNull; duplicate := VNull;
       pendingUrl := None |}.
Proof. reflexivity. Qed.

(** A line that is no [data: ] line, one whose payload is not JSON and
    one of an unknown type call nothing; the line of a step does. *)
Example ignored_lines :
  Api.process_lines Scenario.platform
    [js "event: ping";
     js "data: {not valid json}";
     js "data: " ++ Scenario.unknown_text;
     js "data:   ";
     js "data: " ++ Scenario.step_running_text]
  = ([Api.onStep (mkStep (VString (js "scrape")) (VString (js "running"))
                    VUndefined VUndefined)], Normal ()).
Proof. reflexivity. Qed.

(** A character of three bytes cut after its first byte decodes as in
    one piece; its line is complete only once the newline arrives. *)
Example euro_sign_split :
  let td1 := (Encoding.decode Encoding.TextDecoder_new
                (Scenario.utf8 [0x61; 0xE2])) in
  td1.2 = [0x61]
  ∧ (Encoding.decode td1.1 (Scenario.utf8 [0x82; 0xAC; 0x0A])).2
    = [0x20AC; 0x0A].
Proof. split; reflexivity. Qed.

End Scenarios.

(** * Further properties *)

(** ** The ledger holds the latest event of each step *)

Section LedgerContents.
Implicit Types (e r x : PipelineStep) (l events : list PipelineStep).

Lemma step_names_length l :
  Forall string_named l → length (step_names l) = length l.
Proof.
  induction 1 as [|x l [n Hx] _ IH]; [done|].
  change (step_names (x :: l))
    with (match step_name x with
          | Some y => y :: step_names l
          | None => step_names l
          end).
  rewrite Hx. simpl. by rewrite IH.
Qed.

Lemma step_names_lookup l i x n :
  Forall string_named l → l !! i = Some x → step x = VString n →
  step_names l !! i = Some n.
Proof.
  intros Hall. revert i. induction Hall as [|y l [m Hy] _ IH]; intros i Hi Hx.
  - by rewrite lookup_nil in Hi.
  - change (step_names (y :: l))
      with (match step_name y with
            | Some z => z :: step_names l
            | None => step_names l
            end).
    rewrite Hy. destruct i as [|i]; simpl in *.
    + injection Hi as ->. apply step_name_Some in Hx. congruence.
    + by apply IH.
Qed.

(** In a ledger without two records of one name, a name has one
    position. *)
Lemma name_position_unique l i j x y n :
  Forall string_named l → NoDup (step_names l) →
  l !! i = Some x → l !! j = Some y →
  step x = VString n → step y = VString n → i = j.
Proof.
  intros Hall Hnd Hi Hj Hx Hy.
  eapply NoDup_lookup; [exact Hnd|..]; by eapply step_names_lookup.
Qed.

Lemma elem_of_onStep_update e l n x :
  step e = VString n → Forall string_named l → NoDup (step_names l) →
  x ∈ onStep_update e l ↔ x = e ∨ (x ∈ l ∧ step x ≠ step e).
Proof.
  intros He Hall Hnd. unfold onStep_update.
  destruct (findIndex e l) as [i|] eqn:E.
  - apply (findIndex_Some _ _ n) in E as [(r & Hi & Hr) _]; [|done].
    rewrite list_elem_of_lookup. setoid_rewrite list_lookup_insert_Some.
    split.
    + intros (j & [(_ & <- & _)|(Hij & Hj)]); [by left|right].
      split; [by eapply list_elem_of_lookup_2|].
      rewrite He. intros Hx. apply Hij.
      by eapply (name_position_unique l i j r x n).
    + intros [->|[Hx Hne]].
      * exists i. left. split_and!; [done..|]. by eapply lookup_lt_Some.
      * apply list_elem_of_lookup in Hx as [j Hj]. exists j. right.
        split; [|done]. intros <-. apply Hne. congruence.
  - rewrite (findIndex_None _ _ n) in E by done.
    rewrite elem_of_app, list_elem_of_singleton. rewrite He.
    split; [intros [Hx| ->]|intros [->|[Hx _]]]; eauto.
Qed.

Lemma ledger_of_snoc events e :
  ledger_of (events ++ [e]) = onStep_update e (ledger_of events).
Proof. unfold ledger_of. by rewrite fold_left_app. Qed.

Lemma ledger_of_string_named events :
  Forall string_named events → Forall string_named (ledger_of events).
Proof. intros. unfold ledger_of. by apply ledger_fold_string_named. Qed.

Lemma ledger_of_names events :
  Forall string_named events →
  step_names (ledger_of events) = first_seen (step_names events).
Proof.
  intros. unfold ledger_of. rewrite step_names_fold by done. simpl.
  apply filter_not_in_nil.
Qed.

Lemma latest_snoc events e x :
  latest (events ++ [e]) x ↔ x = e ∨ (latest events x ∧ step x ≠ step e).
Proof.
  split.
  - intros (before & after & Heq & Hafter).
    destruct after as [|a after _] using rev_ind.
    + apply app_inj_tail in Heq as [_ ->]. by left.
    + rewrite app_comm_cons, app_assoc in Heq.
      apply app_inj_tail in Heq as [-> ->].
      apply Forall_app in Hafter as [Hafter Ha].
      right. split; [by exists before, after|].
      rewrite Forall_singleton in Ha. intros Hs. by apply Ha.
  - intros [->|[(before & after & -> & Hafter) Hne]].
    + exists events, []. by split.
    + exists before, (after ++ [e]). split; [by rewrite <- app_assoc|].
      apply Forall_app. split; [done|]. apply Forall_singleton.
      intros Hs. by apply Hne.
Qed.

Lemma ledger_latest_iff events :
  Forall string_named events →
  ∀ x, x ∈ ledger_of events ↔ latest events x.
Proof.
  induction events as [|e events IH] using rev_ind; intros Hall x.
  - split; [by intros ?%elem_of_nil|].
    intros (before & after & Heq & _). by destruct before.
  - apply Forall_app in Hall as [Hall He].
    rewrite Forall_singleton in He. destruct He as [n Hn].
    apply step_name_Some in Hn.
    rewrite ledger_of_snoc, latest_snoc.
    rewrite (elem_of_onStep_update e _ n); [|done|..].
    + by rewrite IH.
    + by apply ledger_of_string_named.
    + rewrite ledger_of_names by done. apply first_seen_NoDup.
Qed.

Lemma first_seen_length keys : (length (first_seen keys) ≤ length keys)%nat.
Proof.
  induction keys as [|k keys IH]; simpl; [done|].
  pose proof (length_filter (λ y : jsstring, y ≠ k) (first_seen keys)). lia.
Qed.

End LedgerContents.

Section LedgerExtras.
Import Components Sample.

Lemma scrape_events_named : Forall string_named [scrape_running; scrape_ok].
Proof. repeat constructor; by eexists. Qed.

(** X1. After any sequence of string-named step events, a record is in
    the ledger exactly when it is the last event of its step name: the
    ledger shows the latest status of every step and nothing else. *)
Theorem ledger_holds_latest (events : list PipelineStep) (r : PipelineStep) :
  Forall string_named events →
  r ∈ ledger_of events ↔ latest events r.
Proof. intros Hall. by apply ledger_latest_iff. Qed.

Lemma ledger_holds_latest_witness :
  scrape_ok ∈ ledger_of [scrape_running; scrape_ok]
  ∧ ¬ latest [scrape_running; scrape_ok] scrape_running.
Proof.
  pose proof (ledger_holds_latest [scrape_running; scrape_ok]) as H.
  split.
  - apply (H scrape_ok scrape_events_named).
    exists [scrape_running], []. by split.
  - intros Hlatest.
    apply (H scrape_running scrape_events_named) in Hlatest.
    vm_compute in Hlatest.
    apply list_elem_of_singleton in Hlatest. discriminate Hlatest.
Defined.

(** X2. Replaying a string-named step event changes nothing: applying
    the updater twice with the same record gives the same ledger as
    applying it once, for every ledger. *)
Theorem onStep_update_replay (e : PipelineStep) (prev : list PipelineStep) :
  string_named e →
  onStep_update e (onStep_update e prev) = onStep_update e prev.
Proof.
  intros [n Hn]. apply step_name_Some in Hn.
  assert (∀ l i, l !! i = Some e →
            (∀ j r, l !! j = Some r → (j < i)%nat → step r ≠ VString n) →
            onStep_update e l = l) as Hfixed.
  { intros l i Hi Hleast. unfold onStep_update.
    rewrite (proj2 (findIndex_Some e l n i Hn)) by eauto.
    by apply list_insert_id. }
  unfold onStep_update at 2 3.
  destruct (findIndex e prev) as [i|] eqn:E.
  - apply (findIndex_Some _ _ n) in E as [(r & Hi & Hr) Hleast]; [|done].
    apply (Hfixed _ i).
    + apply list_lookup_insert_eq. by eapply lookup_lt_Some.
    + intros j r' Hj Hlt. rewrite list_lookup_insert_ne in Hj by lia. eauto.
  - rewrite (findIndex_None _ _ n) in E by done.
    apply (Hfixed _ (length prev)).
    + by apply list_lookup_middle.
    + intros j r' Hj Hlt. rewrite lookup_app_l in Hj by done.
      apply E. by eapply list_elem_of_lookup_2.
Qed.

Lemma onStep_update_replay_witness :
  onStep_update scrape_ok (onStep_update scrape_ok [scrape_running])
  = [scrape_ok].
Proof.
  assert (string_named scrape_ok) as H by by eexists.
  rewrite (onStep_update_replay scrape_ok [scrape_running] H). reflexivity.
Defined.

(** X3. The ledger has one row per distinct step name: after any sequence
    of string-named step events its length is the number of distinct
    names, and so never more than the number of events. *)
Theorem ledger_length (events : list PipelineStep) :
  Forall string_named events →
  length (ledger_of events) = length (first_seen (step_names events))
  ∧ (length (ledger_of events) ≤ length events)%nat.
Proof.
  intros Hall.
  assert (length (ledger_of events) = length (first_seen (step_names events)))
    as Hlen.
  { rewrite <- ledger_of_names by done.
    symmetry. by apply step_names_length, ledger_of_string_named. }
  split; [done|]. rewrite Hlen.
  rewrite <- (step_names_length events Hall). apply first_seen_length.
Qed.

Lemma ledger_length_witness :
  length (ledger_of [scrape_running; scrape_ok]) = 1%nat.
Proof.
  rewrite (proj1 (ledger_length [scrape_running; scrape_ok]
                    scrape_events_named)).
  reflexivity.
Defined.

(** X4. The pulse bar of [PipelineProgress] follows the latest events:
    over the ledger of any sequence of string-named step events,
    [hasRunning] is true exactly when the last event of some step has
    the status [running]. *)
Theorem hasRunning_latest (events : list PipelineStep) :
  Forall string_named events →
  hasRunning (ledger_of events) = true
  ↔ ∃ r, latest events r ∧ status r = VString (js "running").
Proof.
  intros Hall. unfold hasRunning. rewrite existsb_exists.
  split.
  - intros (r & Hr%list_elem_of_In & Hs). exists r.
    split; [by apply ledger_latest_iff|by apply strict_equal_string].
  - intros (r & Hr & Hs). exists r.
    split; [by apply list_elem_of_In, ledger_latest_iff|].
    by apply strict_equal_string.
Qed.

Lemma hasRunning_latest_witness :
  hasRunning (ledger_of [scrape_running]) = true
  ∧ hasRunning (ledger_of [scrape_running; scrape_ok]) = false.
Proof.
  split.
  - apply (hasRunning_latest [scrape_running]).
    + repeat constructor; by eexists.
    + exists scrape_running. split; [|reflexivity].
      exists [], []. by split.
  - reflexivity.
Defined.

End LedgerExtras.

(** ** Lines, line endings and the error event *)

Section LineExtras.
Import Encoding.
Implicit Types (s a b body fragment line prefix : jsstring) (c sep : N).

Lemma pop_split_terminated sep body fragment :
  sep ∉ fragment →
  pop (split sep (body ++ sep :: fragment)) = (split sep body, fragment).
Proof.
  intros Hfragment. induction body as [|c body IH].
  - simpl app. rewrite pop_split_sep, (split_no_sep _ _ Hfragment).
    reflexivity.
  - simpl app. destruct (decide (c = sep)) as [->|Hc].
    + rewrite pop_split_sep, IH. simpl. by rewrite N.eqb_refl.
    + rewrite (pop_split_other _ _ _ Hc), IH. cbn [fst snd].
      simpl. apply N.eqb_neq in Hc. rewrite Hc.
      pose proof (split_not_nil sep body). by destruct (split sep body).
Qed.

Lemma trimStart_app a b :
  trimStart (a ++ b)
  = if forallb is_whitespace a then trimStart b else trimStart a ++ b.
Proof.
  induction a as [|c a IH]; simpl; [done|].
  destruct (is_whitespace c); simpl; [done|reflexivity].
Qed.

Lemma trimStart_all_whitespace a :
  forallb is_whitespace a = true → trimStart a = [].
Proof.
  induction a as [|c a IH]; simpl; [done|].
  destruct (is_whitespace c); simpl; [done|discriminate].
Qed.

(** A white space code unit at the end does not survive [trim]. *)
Lemma trim_snoc_whitespace s c :
  is_whitespace c = true → trim (s ++ [c]) = trim s.
Proof.
  intros Hc. unfold trim, trimEnd. rewrite trimStart_app.
  destruct (forallb is_whitespace s) eqn:E.
  - rewrite (trimStart_all_whitespace s E). simpl. by rewrite Hc.
  - rewrite rev_app_distr. simpl. by rewrite Hc.
Qed.

Lemma startsWith_snoc prefix s c :
  c ∉ prefix → startsWith prefix (s ++ [c]) = startsWith prefix s.
Proof.
  revert s. induction prefix as [|p prefix IH]; intros s Hc; [by destruct s|].
  apply not_elem_of_cons in Hc as [Hp Hc].
  destruct s as [|x s]; simpl.
  - assert ((p =? c) = false) as -> by (apply N.eqb_neq; congruence). done.
  - by rewrite IH.
Qed.

Lemma startsWith_length prefix s :
  startsWith prefix s = true → (length prefix ≤ length s)%nat.
Proof.
  revert s. induction prefix as [|p prefix IH]; intros s; simpl; [lia|].
  destruct s as [|x s]; [done|]. simpl.
  intros [_ H]%andb_true_iff. apply IH in H. lia.
Qed.

End LineExtras.

(** X5. Only the lines that a newline ends are processed: when the
    decoded text of the whole stream is some text, a newline and a last
    fragment without newline, the read loop calls the callbacks of the
    lines of the text before that newline and never looks at the fragment,
    also when the stream ends; a stream without any newline calls
    nothing. *)
Theorem unterminated_line_dropped
    (P : Platform) (chunks : list (list byte)) (ending : option thrown)
    (fragment : jsstring) :
  0x0A ∉ fragment →
  ((Encoding.decode Encoding.TextDecoder_new (concat chunks)).2 = fragment →
   Api.read_loop P Encoding.TextDecoder_new [] chunks ending
   = ([], Api.ending_of ending))
  ∧ (∀ body,
       (Encoding.decode Encoding.TextDecoder_new (concat chunks)).2
       = body ++ 0x0A :: fragment →
       Api.read_loop P Encoding.TextDecoder_new [] chunks ending
       = (flat_map (Api.calls_of P) (split 0x0A body), Api.ending_of ending)).
Proof.
  intros Hfragment. split.
  - intros Htext. rewrite read_loop_lines by apply not_elem_of_nil.
    rewrite Htext. simpl app. by rewrite (split_no_sep _ _ Hfragment).
  - intros body Htext. rewrite read_loop_lines by apply not_elem_of_nil.
    rewrite Htext. simpl app. by rewrite pop_split_terminated.
Qed.

(** A stream that stops in the middle of the first frame, as the witness
    of X5. *)
Lemma unterminated_line_dropped_witness :
  Api.read_loop Scenario.platform Encoding.TextDecoder_new []
    [Scenario.utf8 (js "data: " ++ Scenario.step_running_text)] None
  = ([], Normal ()).
Proof.
  assert (0x0A ∉ js "data: " ++ Scenario.step_running_text) as H.
  { vm_compute. intros Hin. repeat (apply elem_of_cons in Hin as [Hin|Hin];
      [discriminate Hin|]). by apply elem_of_nil in Hin. }
  exact (proj1 (unterminated_line_dropped Scenario.platform
                  [Scenario.utf8 (js "data: " ++ Scenario.step_running_text)]
                  None (js "data: " ++ Scenario.step_running_text) H)
           eq_refl).
Defined.

(** X6. A carriage return before the newline changes nothing: the loop
    body calls the same callbacks for a line and for the line followed by
    U+000D, so a stream with CRLF line ends is parsed like one with LF
    line ends. *)
Theorem carriage_return_ignored (P : Platform) (line : jsstring)
    (lines : list jsstring) :
  Api.process_line P (line ++ [0x0D]) = Api.process_line P line
  ∧ Api.process_lines P (map (λ l, l ++ [0x0D]) lines)
    = Api.process_lines P lines.
Proof.
  assert (∀ l, Api.process_line P (l ++ [0x0D]) = Api.process_line P l) as H.
  { intros l. unfold Api.process_line.
    rewrite startsWith_snoc
      by (vm_compute; intros Hin;
          repeat (apply elem_of_cons in Hin as [Hin|Hin]; [discriminate Hin|]);
          by apply elem_of_nil in Hin).
    destruct (startsWith (js "data: ") l) eqn:E; [|done]. cbn [negb].
    unfold slice. apply startsWith_length in E.
    rewrite (drop_app_le l [0x0D] 6 E).
    by rewrite trim_snoc_whitespace. }
  split; [apply H|].
  rewrite !process_lines_calls. f_equal.
  induction lines as [|l lines IH]; [done|]. simpl.
  rewrite IH. f_equal. unfold Api.calls_of. by rewrite H.
Qed.

(** X7. An [error] event always reaches [onError] with something truthy:
    the [detail] of the message when that is truthy, the text [Unknown
    pipeline error] otherwise; the callback of the hook stores it, so
    after an error event the [error] cell is never null or empty. *)
Theorem error_event_message
    (P : Platform) (line : jsstring) (msg d : value)
    (st : UseEnrichment.State) :
  startsWith (js "data: ") line = true →
  payload line ≠ [] →
  JSON_parse P (payload line) = Normal msg →
  get msg (js "type") = Some (VString (js "error")) →
  get msg (js "detail") = Some d →
  let err := or_else d (VString (js "Unknown pipeline error")) in
  Api.process_line P line = Normal [Api.onError err]
  ∧ truthy err = true
  ∧ (truthy d = true → err = d)
  ∧ (truthy d = false → err = VString (js "Unknown pipeline error"))
  ∧ UseEnrichment.error (UseEnrichment.call (Api.onError err) st) = err.
Proof.
  intros Hprefix Hpayload Hparse Htype Hdetail err.
  assert (truthy err = true) as Htruthy.
  { subst err. unfold or_else. by destruct (truthy d) eqn:E. }
  split_and!; [|done| | |done].
  - unfold Api.process_line. rewrite Hprefix. cbn [negb].
    fold (payload line). destruct (payload line) as [|c p] eqn:E; [done|].
    cbn [truthy negb].
    unfold Api.dispatch. rewrite Hparse. cbn [mbind completion_bind].
    unfold get_or_throw. rewrite Htype, Hdetail.
    reflexivity.
  - intros Hd. subst err. unfold or_else. by rewrite Hd.
  - intros Hd. subst err. unfold or_else. by rewrite Hd.
Qed.

Lemma error_event_message_witness :
  Api.process_line Sample.platform_error (js "data: {}")
  = Normal [Api.onError (VString (js "Unknown pipeline error"))].
Proof.
  assert (payload (js "data: {}") ≠ []) as Hpayload by discriminate.
  exact (proj1 (error_event_message Sample.platform_error (js "data: {}")
                  Sample.error_message VUndefined UseEnrichment.initial
                  eq_refl Hpayload eq_refl eq_refl eq_refl)).
Defined.

(** ** The other calls of [lib/api.ts] and the edges of the lookup *)

Section ApiExtras.
Import UseEnrichment.

(** X8. [checkHealth] never rejects: whatever [fetch] does it resolves,
    to [true] exactly when [fetch] resolved with an [ok] response. *)
Theorem checkHealth_never_rejects (fetched : completion Api.Response) :
  (∀ e, ApiV1.checkHealth fetched ≠ Throw e)
  ∧ (ApiV1.checkHealth fetched = Normal true
     ↔ ∃ r, fetched = Normal r ∧ Api.ok r = true).
Proof.
  unfold ApiV1.checkHealth. destruct fetched as [r|e]; simpl.
  - split; [done|]. split.
    + intros [= H]. by exists r.
    + intros (r' & [= <-] & H). by rewrite H.
  - split; [done|]. split; [done|]. by intros (r & H & _).
Qed.

(** X9. The two analysis calls fail alike: when [fetch] rejects or the
    response is not [ok], [analyzeUrl] and [analyzeUrlV2] throw the same
    error, and [analyzeUrlV2] calls no callback. *)
Theorem analyzeUrl_fails_like_V2
    (P : Platform) (fetched : completion Api.Response) :
  (∀ r, fetched = Normal r → Api.ok r = false) →
  ∃ e, ApiV1.analyzeUrl P fetched = Throw e
       ∧ Api.analyzeUrlV2 P fetched = ([], Throw e).
Proof.
  intros Hfailed. destruct fetched as [r|e]; [|by exists e].
  unfold ApiV1.analyzeUrl, Api.analyzeUrlV2. cbn [mbind completion_bind].
  rewrite (Hfailed r eq_refl). cbn [negb].
  destruct (get_or_throw P _ (js "detail")) as [d|e];
    cbn [mbind completion_bind]; by eexists.
Qed.

Lemma analyzeUrl_fails_like_V2_witness :
  ApiV1.analyzeUrl Scenario.platform
    (Scenario.respond false 500 (Normal Scenario.boom) None)
  = Throw (ErrorObject (js "boom")).
Proof.
  destruct (analyzeUrl_fails_like_V2 Scenario.platform
              (Scenario.respond false 500 (Normal Scenario.boom) None))
    as (e & Hv1 & Hv2).
  - intros r [= <-]. reflexivity.
  - rewrite Hv1. injection Hv2 as <-. reflexivity.
Defined.

(** X10. A domain with a lone surrogate is never looked up:
    [encodeURIComponent] throws inside the [try] of [checkDuplicate], no
    request is made for the lookup, and [analyze] runs the pipeline with
    the URL as submitted. *)
Theorem malformed_domain_skips_lookup
    (P : Platform) (net : Network) (url : jsstring) (st : State) :
  has_lone_surrogate (domain_of P url) = true →
  analyze P net url st
  = {| store := (runPipeline P net url st).1;
       requests := [AnalyzeStreamRequest url (runPipeline_begin st)];
       settled := Normal () |}.
Proof.
  intros Huri. unfold analyze, Api.checkDuplicate. rewrite Huri. simpl.
  pose proof (runPipeline_requests P net url st) as Hsent.
  destruct (runPipeline P net url st) as [st' sent]. simpl in *.
  by subst sent.
Qed.

Lemma malformed_domain_skips_lookup_witness :
  pipeline_urls
    (requests (analyze Scenario.platform Scenario.net_duplicate [0xD800]
                 initial))
  = [[0xD800]].
Proof.
  rewrite (malformed_domain_skips_lookup Scenario.platform
             Scenario.net_duplicate [0xD800] initial eq_refl).
  reflexivity.
Defined.

(** X11. A lookup answered with the JSON value [null] makes [analyze]
    reject: reading [exists] of [null] throws a [TypeError] outside any
    [try], the store is untouched and no pipeline request is made. *)
Theorem lookup_null_rejects
    (P : Platform) (net : Network) (url : jsstring) (st : State)
    (r : Api.Response) :
  check_duplicate net (domain_of P url) = Normal r →
  Api.ok r = true → Api.json r = Normal VNull →
  has_lone_surrogate (domain_of P url) = false →
  analyze P net url st
  = {| store := st;
       requests := [CheckDuplicateRequest (domain_of P url)];
       settled := Throw (ErrorObject (TypeError_message P (js "exists"))) |}.
Proof.
  intros Hfetch Hok Hjson Huri. unfold analyze, Api.checkDuplicate.
  rewrite Hfetch, Huri. simpl. rewrite Hok, Hjson. reflexivity.
Qed.

Lemma lookup_null_rejects_witness :
  store (analyze Scenario.platform Sample.net_lookup_null
           (js "https://shop.com") initial) = initial
  ∧ pipeline_urls
      (requests (analyze Scenario.platform Sample.net_lookup_null
                   (js "https://shop.com") initial)) = [].
Proof.
  rewrite (lookup_null_rejects Scenario.platform Sample.net_lookup_null
             (js "https://shop.com") initial _ eq_refl eq_refl eq_refl
             eq_refl).
  split; reflexivity.
Defined.

(** X12. A lookup answer that is not [null] and has no truthy [exists]
    (an object without the field, a number, a string, an array) counts
    as no duplicate: [analyze] runs the pipeline with the URL as
    submitted. *)
Theorem lookup_without_exists_runs
    (P : Platform) (net : Network) (url : jsstring) (st : State)
    (answer : value) :
  lookup P net url = Normal answer →
  answer ≠ VNull → answer ≠ VUndefined →
  (∀ props, answer = VObject props →
     truthy (lookup_property (js "exists") props) = false) →
  store (analyze P net url st) = (runPipeline P net url st).1
  ∧ pipeline_urls (requests (analyze P net url st)) = [url]
  ∧ settled (analyze P net url st) = Normal ().
Proof.
  intros Hlookup Hnull Hundef Hexists.
  assert (∃ found, get answer (js "exists") = Some found
                   ∧ truthy found = false) as (found & Hget & Hfalsy).
  { destruct answer; try done; try (by exists VUndefined).
    eexists. split; [reflexivity|]. by apply Hexists. }
  by apply (analyze_clear P net url st answer found).
Qed.

Lemma lookup_without_exists_runs_witness :
  pipeline_urls
    (requests (analyze Scenario.platform Sample.net_lookup_empty
                 (js "https://x.com/") initial))
  = [js "https://x.com/"].
Proof.
  refine (proj1 (proj2 (lookup_without_exists_runs Scenario.platform
            Sample.net_lookup_empty (js "https://x.com/") initial
            (VObject []) eq_refl _ _ _))); try discriminate.
  intros props [= <-]. reflexivity.
Defined.

End ApiExtras.

(** ** The hook between calls, the form and the page *)

Section HookExtras.
Import UseEnrichment Components.
Implicit Types (st : State) (url : jsstring).



(** What [analyze] can leave: the store it found, the prompt, or the
    store a run leaves. *)
Lemma analyze_store_cases P net url st :
  store (analyze P net url st) = st
  ∨ (∃ d, store (analyze P net url st)
          = setPendingUrl (Some url) (setDuplicate d st))
  ∨ store (analyze P net url st) = (runPipeline P net url st).1.
Proof.
  unfold analyze. destruct (Api.checkDuplicate _ _) as [asked dup].
  destruct dup as [dupResult|e]; cbn [mbind completion_bind]; [|by left].
  unfold get_or_throw. destruct (get dupResult _) as [found|];
    cbn [mbind completion_bind mret completion_ret]; [|by left].
  destruct (truthy found); [right; left; by eexists|].
  right. right. by destruct (runPipeline P net url st).
Qed.

Lemma confirmAnalyze_store_cases P net st :
  store (confirmAnalyze P net st) = st
  ∨ ∃ url, store (confirmAnalyze P net st)
           = setPendingUrl None (runPipeline P net url (setDuplicate VNull st)).1.
Proof.
  unfold confirmAnalyze. destruct (pendingUrl st) as [url|]; [|by left].
  destruct (truthy _); [|by left].
  right. exists url. by destruct (runPipeline P net url _).
Qed.

Lemma reset_not_loading st : isLoading st = false → reset st = initial.
Proof. destruct st as [? ? [] ? ? ?]; [discriminate|reflexivity]. Qed.

Lemma settled_store_facts P st :
  settled_store P st →
  isLoading st = false ∧ (duplicate st = VNull ∨ is_Some (pendingUrl st)).
Proof.
  induction 1 as [|net url st _ [IHl IHd]|net st _ [IHl IHd]
                  |st _ [IHl IHd]|st _ [IHl IHd]].
  - split; [done|by left].
  - destruct (analyze_store_cases P net url st) as [->|[[d ->]| ->]].
    + done.
    + split; [done|]. right. by eexists.
    + split; [apply runPipeline_isLoading|].
      left. apply runPipeline_duplicate.
  - destruct (confirmAnalyze_store_cases P net st) as [->|[url ->]]; [done|].
    split; [apply runPipeline_isLoading|].
    left. apply runPipeline_duplicate.
  - split; [done|by left].
  - split; [done|by left].
Qed.

End HookExtras.

Section TrimExtras.
Implicit Types (s t : jsstring) (c : N).

Lemma trimStart_starts_clean s : starts_clean (trimStart s).
Proof.
  induction s as [|c s IH]; simpl; [done|].
  by destruct (is_whitespace c) eqn:E.
Qed.

Lemma trimStart_clean s : starts_clean s → trimStart s = s.
Proof. destruct s as [|c s]; simpl; [done|]. by intros ->. Qed.

Lemma trimEnd_starts_clean t : starts_clean t → starts_clean (trimEnd t).
Proof.
  destruct t as [|c t]; [done|]. simpl. intros Hc. unfold trimEnd. simpl.
  rewrite trimStart_app. simpl. rewrite Hc.
  destruct (forallb is_whitespace (rev t)); simpl.
  - done.
  - by rewrite rev_app_distr.
Qed.

Lemma trim_starts_clean s : starts_clean (trim s).
Proof. apply trimEnd_starts_clean, trimStart_starts_clean. Qed.

Lemma trim_ends_clean s : starts_clean (rev (trim s)).
Proof.
  unfold trim, trimEnd. rewrite rev_involutive. apply trimStart_starts_clean.
Qed.

(** [trim] leaves what it returns alone. *)
Lemma trim_trim s : trim (trim s) = trim s.
Proof.
  unfold trim at 1. rewrite (trimStart_clean _ (trim_starts_clean s)).
  unfold trimEnd. rewrite (trimStart_clean _ (trim_ends_clean s)).
  apply rev_involutive.
Qed.

End TrimExtras.

Section PageExtras.
Import UseEnrichment Components.


(** X14. A read that fails after some events costs only the error
    message: the store a run leaves when [reader.read()] rejects after
    the chunks is the store it leaves when the same chunks end with
    [done], with [error] set to the message of the rejection: the steps
    and results gathered so far stay. *)
Theorem read_failure_sets_only_error
    (P : Platform) (broken complete : Network) (url : jsstring) (st : State)
    (r r' : Api.Response) (chunks : list (list byte)) (e : thrown) :
  analyze_stream broken url = Normal r →
  Api.ok r = true → Api.body r = Some (chunks, Some e) →
  analyze_stream complete url = Normal r' →
  Api.ok r' = true → Api.body r' = Some (chunks, None) →
  (runPipeline P broken url st).1
  = setError (VString (caught_message e)) (runPipeline P complete url st).1.
Proof.
  intros Hb Hok Hbody Hc Hok' Hbody'. unfold runPipeline.
  rewrite Hb, Hc. unfold Api.analyzeUrlV2.
  rewrite Hok, Hok', Hbody, Hbody'. cbn [negb].
  rewrite !read_loop_lines by apply not_elem_of_nil. reflexivity.
Qed.

Lemma read_failure_sets_only_error_witness :
  let after :=
    (runPipeline Scenario.platform Sample.net_broken_stream
       (js "https://x.com/") initial).1 in
  error after = VString (js "network error")
  ∧ steps after = [Sample.scrape_ok]
  ∧ results after = Scenario.result_data.
Proof.
  intros after. subst after.
  rewrite (read_failure_sets_only_error Scenario.platform
             Sample.net_broken_stream Scenario.net_clear (js "https://x.com/")
             initial _ _ Scenario.three_events
             (ErrorObject (js "network error"))
             eq_refl eq_refl eq_refl eq_refl eq_refl eq_refl).
  split_and!; reflexivity.
Defined.

(** X15. Between calls the hook is never loading: in every store reached
    from the initial one by calls of [analyze], [confirmAnalyze],
    [dismissDuplicate] and [reset] that are each left to settle, whatever
    the remote service answers, [isLoading] is false, [reset] gives
    exactly the initial store, and the duplicate modal of [Home] is on
    the page only while a URL is pending. *)
Theorem settled_store_invariant (P : Platform) (st : State) :
  settled_store P st →
  isLoading st = false
  ∧ reset st = initial
  ∧ (duplicate_warning (Home st) = true → is_Some (pendingUrl st)).
Proof.
  intros Hsettled.
  destruct (settled_store_facts P st Hsettled) as [Hloading Hdup].
  split_and!; [done|by apply reset_not_loading|].
  destruct Hdup as [Hnull|Hpending]; [|done].
  unfold Home. simpl. by rewrite Hnull.
Qed.

Lemma settled_store_invariant_witness :
  reset (store (analyze Scenario.platform Scenario.net_clear
                  (js "https://x.com/") initial)) = initial.
Proof.
  refine (proj1 (proj2 (settled_store_invariant Scenario.platform _ _))).
  apply settled_analyze, settled_initial.
Defined.

(** X16. What the form submits is trimmed and not empty: when
    [handleSubmit] calls [onSubmit] the argument is [url.trim()], it is
    not the empty string and trimming it again changes nothing; so for
    a submission of the form the lookup key is the scheme-stripped,
    slash-cut, lowercased URL itself, and a pending submission of the
    form is always run by [confirmAnalyze]. *)
Theorem form_submission
    (P : Platform) (net : Network) (url submitted : jsstring) (st : State) :
  handleSubmit url = Some submitted →
  submitted = trim url
  ∧ submitted ≠ []
  ∧ trim submitted = submitted
  ∧ domain_of P submitted = Spec.domain P submitted
  ∧ (pendingUrl st = Some submitted →
     pipeline_urls (requests (confirmAnalyze P net st)) = [submitted]).
Proof.
  unfold handleSubmit. intros Hsubmit.
  destruct (truthy (VString (trim url))) eqn:Htruthy; [|done].
  injection Hsubmit as <-.
  assert (trim url ≠ []) as Hne by (intros H; by rewrite H in Htruthy).
  split_and!; [done|done|apply trim_trim|..].
  - unfold domain_of, Spec.domain.
    by rewrite trim_trim, replace_scheme_strip, split_head.
  - intros Hpending.
    rewrite (confirmAnalyze_pending P net (trim url) st Hpending Hne).
    cbn [requests]. by rewrite runPipeline_requests.
Qed.

Lemma form_submission_witness :
  handleSubmit (js "  https://Shop.com/a  ") = Some (js "https://Shop.com/a")
  ∧ domain_of Scenario.platform (js "https://Shop.com/a")
    = Spec.domain Scenario.platform (js "https://Shop.com/a").
Proof.
  split; [reflexivity|].
  exact (proj1 (proj2 (proj2 (proj2
    (form_submission Scenario.platform Scenario.net_clear
       (js "  https://Shop.com/a  ") (js "https://Shop.com/a") initial
       eq_refl))))).
Defined.

(** X17. A cancelled prompt never runs: when the lookup of
    [analyze(url)] reports [exists = true] and [dismissDuplicate()]
    follows, no pipeline request has been made, [results], [steps],
    [error] and [isLoading] are what they were before the prompt, [Home]
    no longer mounts the duplicate modal, and a later [confirmAnalyze()]
    makes no request and changes nothing. *)
Theorem cancelled_prompt_never_runs
    (P : Platform) (net net' : Network) (url : jsstring) (st : State)
    (dupResult : value) :
  lookup P net url = Normal dupResult →
  get dupResult (js "exists") = Some (VBool true) →
  let dismissed := dismissDuplicate (store (analyze P net url st)) in
  pipeline_urls (requests (analyze P net url st)) = []
  ∧ results dismissed = results st
  ∧ steps dismissed = steps st
  ∧ error dismissed = error st
  ∧ isLoading dismissed = isLoading st
  ∧ duplicate_warning (Home dismissed) = false
  ∧ confirmAnalyze P net' dismissed
    = {| store := dismissed; requests := []; settled := Normal () |}.
Proof.
  intros Hlookup Hexists dismissed.
  destruct (analyze_prompting P net url st dupResult (VBool true))
    as (Hstore & Hnone & _); [done..|].
  subst dismissed. rewrite Hstore. by split_and!.
Qed.

Lemma cancelled_prompt_never_runs_witness :
  let dismissed :=
    dismissDuplicate
      (store (analyze Scenario.platform Scenario.net_duplicate
                (js "https://shop.com") initial)) in
  requests (confirmAnalyze Scenario.platform Scenario.net_clear dismissed)
  = [].
Proof.
  intros dismissed.
  destruct (cancelled_prompt_never_runs Scenario.platform
              Scenario.net_duplicate Scenario.net_clear
              (js "https://shop.com") initial Scenario.known_shop
              eq_refl eq_refl) as (_ & _ & _ & _ & _ & _ & Hconfirm).
  fold dismissed in Hconfirm. by rewrite Hconfirm.
Defined.

(** X18. A request that fails before the stream leaves only the error on
    the page: when [runPipeline] fails with a message that is not empty,
    [Home] shows [ErrorDisplay] and neither [PipelineProgress], nor
    [ResultsDisplay], nor the duplicate modal. *)
Theorem failed_request_page
    (P : Platform) (net : Network) (url : jsstring) (st : State)
    (m : jsstring) :
  fails_with P net url st m →
  m ≠ [] →
  Home (runPipeline P net url st).1
  = {| progress_while_loading := false; progress_after := false;
       error_display := true; results_display := false;
       duplicate_warning := false |}.
Proof.
  intros [Hthrows _] Hm. unfold runPipeline. rewrite Hthrows.
  unfold Home. simpl. by destruct m.
Qed.

Lemma failed_request_page_witness :
  error_display
    (Home (runPipeline Scenario.platform
             (Scenario.net_failing (Normal Scenario.boom))
             (js "https://x.com/") initial).1) = true.
Proof.
  assert (js "boom" ≠ []) as Hm by discriminate.
  assert (fails_with Scenario.platform
            (Scenario.net_failing (Normal Scenario.boom))
            (js "https://x.com/") initial (js "boom")) as Hfails
    by (repeat split).
  rewrite (failed_request_page _ _ _ _ _ Hfails Hm). reflexivity.
Defined.

(** X19. After a run the page is out of its loading state: in the store
    any run leaves, whatever the stream delivered, [Home] mounts neither
    the loading progress nor the duplicate modal, and it never mounts
    both [ResultsDisplay] and the step list that stays after a run. *)
Theorem page_after_run
    (P : Platform) (net : Network) (url : jsstring) (st : State) :
  let after := (runPipeline P net url st).1 in
  progress_while_loading (Home after) = false
  ∧ duplicate_warning (Home after) = false
  ∧ results_display (Home after) && progress_after (Home after) = false.
Proof.
  intros after.
  pose proof (runPipeline_isLoading P net url st) as Hloading.
  pose proof (runPipeline_duplicate P net url st) as Hdup.
  fold after in Hloading, Hdup.
  unfold Home. cbn [progress_while_loading duplicate_warning results_display
                    progress_after].
  rewrite Hloading, Hdup. cbn [negb andb truthy].
  split_and!; try reflexivity.
  destruct (truthy (results after)); [|reflexivity].
  rewrite !andb_true_r. cbn [negb]. by rewrite andb_false_r.
Qed.

End PageExtras.

Section GateExtras.
Import UseEnrichment Components.

Lemma ascii_only_forallb s : ascii_only s → forallb is_ascii s = true.
Proof.
  induction 1 as [|c s Hc _ IH]; [done|]. simpl. by rewrite Hc, IH.
Qed.

Lemma ascii_only_trimStart s : ascii_only s → ascii_only (trimStart s).
Proof.
  induction 1 as [|c s Hc Hs IH]; simpl; [constructor|].
  destruct (is_whitespace c); [done|by constructor].
Qed.

Lemma ascii_only_trim s : ascii_only s → ascii_only (trim s).
Proof.
  intros Hs. unfold trim, trimEnd.
  by apply Forall_rev, ascii_only_trimStart, Forall_rev, ascii_only_trimStart.
Qed.

Lemma ascii_only_strip s : ascii_only s → ascii_only (Spec.strip_scheme s).
Proof.
  intros Hs. unfold Spec.strip_scheme.
  repeat (destruct (startsWith _ s)); try done; by apply Forall_drop.
Qed.

Lemma ascii_only_before_slash s :
  ascii_only s → ascii_only (Spec.before_first_slash s).
Proof.
  induction 1 as [|c s Hc Hs IH]; simpl; [constructor|].
  destruct (c =? 47); by constructor.
Qed.

Lemma before_first_slash_no_slash s :
  Forall (λ c, c ≠ 0x2F) (Spec.before_first_slash s).
Proof.
  induction s as [|c s IH]; simpl; [constructor|].
  destruct (c =? 47) eqn:E; constructor; [|done].
  by apply N.eqb_neq in E.
Qed.

Lemma lower_ascii_key_unit c : c ≠ 0x2F → key_unit (lower_ascii c).
Proof.
  intros Hc. unfold key_unit, lower_ascii.
  destruct ((0x41 <=? c) && (c <=? 0x5A)) eqn:E.
  - apply andb_true_iff in E as [H1%N.leb_le H2%N.leb_le]. lia.
  - apply andb_false_iff in E as [H%N.leb_gt|H%N.leb_gt]; lia.
Qed.

(** X20. The lookup key of an ASCII URL is normalized: it does not depend
    on the platform's Unicode tables, and it holds no slash and no upper
    case letter. *)
Theorem domain_of_ascii (P : Platform) (url : jsstring) :
  ascii_only url →
  domain_of P url
  = map lower_ascii (Spec.before_first_slash (Spec.strip_scheme (trim url)))
  ∧ Forall key_unit (domain_of P url).
Proof.
  intros Hascii.
  assert (domain_of P url
          = map lower_ascii
              (Spec.before_first_slash (Spec.strip_scheme (trim url)))) as H.
  { unfold domain_of. rewrite replace_scheme_strip, split_head.
    unfold toLowerCase. rewrite ascii_only_forallb; [done|].
    by apply ascii_only_before_slash, ascii_only_strip, ascii_only_trim. }
  split; [done|]. rewrite H. apply Forall_map.
  eapply Forall_impl; [apply before_first_slash_no_slash|].
  intros c Hc. by apply lower_ascii_key_unit.
Qed.

Lemma domain_of_ascii_witness :
  Forall key_unit (domain_of Scenario.platform (js "https://Example.COM/path?x=1")).
Proof.
  apply (domain_of_ascii Scenario.platform (js "https://Example.COM/path?x=1")).
  vm_compute. repeat constructor.
Defined.

(** X21. Confirming twice runs the pipeline once: whatever the store,
    once a call of [confirmAnalyze] has settled a second call makes no
    request and leaves the store as it is. *)
Theorem confirmAnalyze_twice
    (P : Platform) (net net' : Network) (st : State) :
  confirmAnalyze P net' (store (confirmAnalyze P net st))
  = {| store := store (confirmAnalyze P net st); requests := [];
       settled := Normal () |}.
Proof.
  unfold confirmAnalyze at 2 3.
  destruct (pendingUrl st) as [url|] eqn:Hpending.
  - destruct (truthy (VString url)) eqn:Htruthy.
    + destruct (runPipeline P net url _) as [st' sent]. reflexivity.
    + cbn [store]. unfold confirmAnalyze. by rewrite Hpending, Htruthy.
  - cbn [store]. unfold confirmAnalyze. by rewrite Hpending.
Qed.

(** X22. Prompt and cancel is a round trip: from a store with no
    duplicate shown and nothing pending, an [analyze(url)] whose lookup
    reports [exists = true] followed by [dismissDuplicate()] gives back
    the store, and no pipeline request has been made. *)
Theorem prompt_then_cancel
    (P : Platform) (net : Network) (url : jsstring) (st : State)
    (dupResult : value) :
  lookup P net url = Normal dupResult →
  get dupResult (js "exists") = Some (VBool true) →
  duplicate st = VNull → pendingUrl st = None →
  dismissDuplicate (store (analyze P net url st)) = st
  ∧ pipeline_urls (requests (analyze P net url st)) = [].
Proof.
  intros Hlookup Hexists Hdup Hpending.
  destruct (analyze_prompting P net url st dupResult (VBool true))
    as (Hstore & Hnone & _); [done..|].
  split; [|done]. rewrite Hstore.
  destruct st as [? ? ? ? d p]. simpl in *. by subst.
Qed.

Lemma prompt_then_cancel_witness :
  dismissDuplicate
    (store (analyze Scenario.platform Scenario.net_duplicate
              (js "https://shop.com") initial)) = initial.
Proof.
  exact (proj1 (prompt_then_cancel Scenario.platform Scenario.net_duplicate
                  (js "https://shop.com") initial Scenario.known_shop
                  eq_refl eq_refl eq_refl eq_refl)).
Defined.

End GateExtras.
